(** * FunkMF: online matrix factorisation (creme/reco/funk_mf.py)

    A shallow embedding of [FunkMF.__init__], [FunkMF._predict_one] and
    [FunkMF._fit_one].

    Conventions of the embedding.
    - Python floats are idealised as exact rationals [Q]; a numpy 1-D array
      is a [list Q].  Where rounding could decide a comparison of
      magnitudes, the comparison is stated without strictness.  Every array the model stores is reachable from one
      dictionary slot only and the per-vector gradients are freshly built
      arrays, so arrays are modelled by value.
    - The two [collections.defaultdict] stores are finite maps [gmap K vec].
    - Optimizers and initializers are Python objects with identity and
      private mutable state: they live in a heap and the model holds
      locations.  Two attributes that hold the same location alias the same
      object.
    - A Python exception leaves every mutation performed before it in
      place: computations are state transformers returning an [outcome]
      together with the state reached. *)

From Stdlib Require Import QArith Lqa.
From stdpp Require Import gmap strings list fin_maps.

Abbreviation vec := (list Q).
Abbreviation loc := nat.

(** ** Exceptions and outcomes *)

Inductive exn : Type :=
  | ValueError      (* numpy: shapes not aligned *)
  | TypeError       (* arithmetic on a non-numeric target *)
  | NoSuchObject.   (* a location outside the heap; never raised for a
                       model built by [__init__] *)

Inductive outcome (A : Type) : Type :=
  | Return (a : A)
  | Raise (e : exn).
Arguments Return {A} a.
Arguments Raise {A} e.

Definition is_Return {A} (o : outcome A) : Prop :=
  match o with Return _ => True | Raise _ => False end.

(** ** numpy on 1-D arrays *)

Module np.

Fixpoint sum_products (a b : vec) : Q :=
  match a, b with
  | x :: a', y :: b' => (x * y + sum_products a' b')%Q
  | _, _ => 0%Q
  end.

(** [np.dot] of two 1-D arrays: the inner product, [ValueError] when the
    sizes differ. *)
Definition dot (a b : vec) : outcome Q :=
  if decide (length a = length b) then Return (sum_products a b)
  else Raise ValueError.

(** [c * a] for a scalar [c]. *)
Definition scale (c : Q) (a : vec) : vec := map (Qmult c) a.

(** [a + b] and [a - b], element by element.  Every call of the model is on
    two arrays of one size (it follows a successful [dot] of the same
    arrays), where numpy does no broadcasting. *)
Definition add (a b : vec) : vec := zip_with Qplus a b.
Definition sub (a b : vec) : vec := zip_with Qminus a b.


End np.

(** ** utils.math.clamp *)

(** Modelled from the spec: [utils.math.clamp] is not part of the sources at
    hand; section 4.5 step 3 describes it as the hard clamp of a value to
    the interval from [minimum] to [maximum]. *)
Definition clamp (x minimum maximum : Q) : Q :=
  let m := if Qlt_le_dec maximum x then maximum else x in
  if Qlt_le_dec m minimum then minimum else m.

(** ** Targets and losses *)

(** The target [y] of [fit_one] is an arbitrary Python value. *)
Inductive target : Type :=
  | Number (y : Q)
  | NonNumeric (repr : string).

(** [optim.Loss]: only [gradient] is used by the model. *)
Record Loss : Type := { gradient : target → Q → outcome Q }.

(** Modelled from the spec: [optim.losses.Squared] is not part of the
    sources at hand; section 6 names the default loss as the squared error,
    whose derivative in the prediction is [2 * (y_pred - y_true)], and
    section 7 asks a target of the wrong type to fail. *)
Definition Squared : Loss :=
  {| gradient y_true y_pred :=
       match y_true with
       | Number y => Return (2 * (y_pred - y))%Q
       | NonNumeric _ => Raise TypeError
       end |}.

(** ** Interfaces of the collaborators *)

(** [optim.Optimizer.update_after_pred(w, g)]: returns the updated weights;
    the optimizer object may change its own state. *)
Class Optimizer (K O : Type) `{Countable K} :=
  update_after_pred : O → gmap K vec → gmap K vec → gmap K vec * O.

(** [optim.initializers.Initializer.__call__(shape)]: returns an array; a
    stochastic initializer advances its generator. *)
Class Initializer (I : Type) :=
  initializer_call : I → nat → vec * I.

(** ** The model *)

Section FunkMF.

Context {K : Type} `{Countable K}.
Context {O I : Type} `{!Optimizer K O} `{!Initializer I}.

(** [optim.SGD()] and [optim.initializers.Normal(mu, sigma, random_state)]:
    the objects [__init__] builds when an argument is left unset. *)
Variable SGD_default : O.
Variable Normal : Q → Q → option nat → I.

Record FunkMF : Type := mkFunkMF {
  n_factors : nat;
  u_optimizer : loc;
  i_optimizer : loc;
  loss : Loss;
  l2 : Q;
  initializer : loc;
  clip_gradient : Q;
  random_state : option nat;
  u_latents : gmap K vec;
  i_latents : gmap K vec;
}.

(** The heap of optimizer and initializer objects. *)
Record Heap : Type := mkHeap {
  optimizers : gmap loc O;
  initializers : gmap loc I;
}.

Record World : Type := mkWorld { self : FunkMF; heap : Heap }.

Definition set_u_latents (d : gmap K vec) (m : FunkMF) : FunkMF :=
  mkFunkMF (n_factors m) (u_optimizer m) (i_optimizer m) (loss m) (l2 m)
           (initializer m) (clip_gradient m) (random_state m)
           d (i_latents m).

Definition set_i_latents (d : gmap K vec) (m : FunkMF) : FunkMF :=
  mkFunkMF (n_factors m) (u_optimizer m) (i_optimizer m) (loss m) (l2 m)
           (initializer m) (clip_gradient m) (random_state m)
           (u_latents m) d.

(** A new object at a location not yet in use. *)
Definition alloc {A : Type} (a : A) (h : gmap loc A) : loc * gmap loc A :=
  let l := fresh (dom h) in (l, <[l := a]> h).

(** *** [__init__] (lines 88-108)

    [optimizer] and [initializer], when given, are existing objects. *)
Definition __init__ (n_factors : nat) (optimizer : option loc)
    (loss : option Loss) (l2 : Q) (initializer : option loc)
    (clip_gradient : Q) (random_state : option nat) (h : Heap) : World :=
  let '(u_opt, opts) :=
    match optimizer with
    | None => alloc SGD_default (optimizers h)
    | Some o => (o, optimizers h)
    end in
  let '(i_opt, opts) :=
    match optimizer with
    | None => alloc SGD_default opts
    | Some o => (o, opts)
    end in
  let loss := match loss with None => Squared | Some l => l end in
  let '(init, inits) :=
    match initializer with
    | None => alloc (Normal 0 (1 # 10) random_state) (initializers h)
    | Some i => (i, initializers h)
    end in
  mkWorld
    (mkFunkMF n_factors u_opt i_opt loss l2 init clip_gradient random_state
              ∅ ∅)
    (mkHeap opts inits).

(** *** Computations: state and exceptions *)

Definition M (A : Type) : Type := World → outcome A * World.

Definition ret {A} (a : A) : M A := λ w, (Return a, w).

Definition bind {A B} (m : M A) (f : A → M B) : M B :=
  λ w, match m w with
       | (Return a, w') => f a w'
       | (Raise e, w') => (Raise e, w')
       end.

Notation "'let!' x ':=' m 'in' k" := (bind m (λ x, k))
  (at level 10, x name, m at level 100, k at level 200,
   format "'[v' 'let!'  x  ':='  m  'in' '/' k ']'").

(** Reading an attribute of [self]. *)
Definition attr {A} (f : FunkMF → A) : M A := λ w, (Return (f (self w)), w).

Definition lift {A} (o : outcome A) : M A := λ w, (o, w).

(** [random_latents()], the [functools.partial] of lines 103-106: one call
    of the initializer object with [shape = n_factors].  Both stores hold
    this single factory. *)
Definition random_latents : M vec :=
  λ w, match initializers (heap w) !! initializer (self w) with
       | None => (Raise NoSuchObject, w)
       | Some s =>
           let '(v, s') := initializer_call s (n_factors (self w)) in
           (Return v,
            mkWorld (self w)
              (mkHeap (optimizers (heap w))
                      (<[initializer (self w) := s']> (initializers (heap w)))))
       end.

(** [d[key]] on a [defaultdict]: a missing key is created by the factory
    and inserted. *)
Definition defaultdict_getitem (get : FunkMF → gmap K vec)
    (set : gmap K vec → FunkMF → FunkMF) (key : K) : M vec :=
  let! d := attr get in
  match d !! key with
  | Some v => ret v
  | None =>
      let! v := random_latents in
      λ w, (Return v, mkWorld (set (<[key := v]> (get (self w))) (self w))
                              (heap w))
  end.

Definition u_latents_getitem : K → M vec :=
  defaultdict_getitem u_latents set_u_latents.
Definition i_latents_getitem : K → M vec :=
  defaultdict_getitem i_latents set_i_latents.

(** *** [_predict_one] (lines 110-111) *)
Definition _predict_one (user item : K) : M Q :=
  let! u := u_latents_getitem user in
  let! i := i_latents_getitem item in
  lift (np.dot u i).

(** [self.X_latents = self.X_optimizer.update_after_pred(self.X_latents, g)] *)
Definition optimizer_step (opt : FunkMF → loc) (get : FunkMF → gmap K vec)
    (set : gmap K vec → FunkMF → FunkMF) (g : gmap K vec) : M unit :=
  λ w, match optimizers (heap w) !! opt (self w) with
       | None => (Raise NoSuchObject, w)
       | Some o =>
           let '(d, o') := update_after_pred o (get (self w)) g in
           (Return tt,
            mkWorld (set d (self w))
              (mkHeap (<[opt (self w) := o']> (optimizers (heap w)))
                      (initializers (heap w))))
       end.

(** Lines 121-127 of [_fit_one], for the clamped loss gradient [g_loss]. *)
Definition update_latents (user item : K) (g_loss : Q) : M unit :=
  let! i := i_latents_getitem item in
  let! l2_ := attr l2 in
  let! u := u_latents_getitem user in
  let u_latent_grad : gmap K vec :=
    {[ user := np.add (np.scale g_loss i) (np.scale l2_ u) ]} in
  let! u := u_latents_getitem user in
  let! l2_ := attr l2 in
  let! i := i_latents_getitem item in
  let i_latent_grad : gmap K vec :=
    {[ item := np.add (np.scale g_loss u) (np.scale l2_ i) ]} in
  let! _ := optimizer_step u_optimizer u_latents set_u_latents
                           u_latent_grad in
  optimizer_step i_optimizer i_latents set_i_latents i_latent_grad.

(** *** [_fit_one] (lines 113-129) *)
Definition _fit_one (user item : K) (y : target) : M unit :=
  let! y_pred := _predict_one user item in
  let! loss_ := attr loss in
  let! g_loss := lift (gradient loss_ y y_pred) in
  let! c := attr clip_gradient in
  let g_loss := clamp g_loss (- c) c in
  update_latents user item g_loss.

End FunkMF.

Arguments mkFunkMF {K _ _} _ _ _ _ _ _ _ _ _ _.
Arguments mkWorld {K _ _ O I} _ _.
Arguments mkHeap {O I} _ _.

(** ** Concrete collaborators *)

(** [w[k] -= step[k]] for every key of [steps]; the other keys are left as
    they are.  (The model only steps keys that are in the store.) *)
Definition apply_steps {K} `{Countable K} (w steps : gmap K vec) : gmap K vec :=
  merge (λ wk st, match wk, st with
                  | Some wk, Some st => Some (np.sub wk st)
                  | Some wk, None => Some wk
                  | None, _ => None
                  end) w steps.

(** Modelled from the spec: [optim.SGD] is not part of the sources at hand;
    section 4.3 gives the update contract (each key of the gradients is
    replaced by the old vector minus the step) and section 6 names plain SGD
    with a fixed learning rate, whose step is the learning rate times the
    gradient. *)
Record SGD : Type := mkSGD { lr : Q }.

#[export] Instance SGD_optimizer {K} `{Countable K} : Optimizer K SGD :=
  λ o w g, (apply_steps w (np.scale (lr o) <$> g), o).

(** Modelled from the spec: the default learning rate of [optim.SGD()] is
    fixed (section 6); the library's value is 0.01. *)
Definition SGD_new : SGD := mkSGD (1 # 100).

(** Modelled from the spec: a momentum optimizer, one of the stateful rules
    section 4.3 names: per key an accumulator, neutral (zero) at the first
    encounter, [s[k] = rho * s[k] + lr * g[k]] and [w[k] -= s[k]]. *)
Record Momentum (K : Type) `{Countable K} : Type :=
  mkMomentum { m_lr : Q; m_rho : Q; m_s : gmap K vec }.
Arguments mkMomentum {K _ _} _ _ _.
Arguments m_lr {K _ _} _.
Arguments m_rho {K _ _} _.
Arguments m_s {K _ _} _.

#[export] Instance Momentum_optimizer {K} `{Countable K} :
    Optimizer K (Momentum K) :=
  λ o w g,
    let steps :=
      map_imap (λ k gk,
        Some (np.add (np.scale (m_rho o)
                        (default (np.scale 0 gk) (m_s o !! k)))
                     (np.scale (m_lr o) gk))) g in
    (apply_steps w steps, mkMomentum (m_lr o) (m_rho o) (steps ∪ m_s o)).

(** Modelled from the spec: the initializer is seedable and stochastic and
    yields [shape] values (section 3); its distribution is not modelled.  A
    linear congruential generator stands for numpy's generator: each value
    is [mu + sigma * r] with [r] one of the 201 hundredths between -1 and 1.
    An unset [random_state] stands for the process-wide generator in its
    initial state; that several initializers then share that generator is
    not modelled. *)
Record Lcg : Type := mkLcg { lcg_mu : Q; lcg_sigma : Q; lcg_state : Z }.

Definition lcg_next (s : Z) : Z := ((s * 1103515245 + 12345) mod 2147483648)%Z.

Fixpoint lcg_draw (mu sigma : Q) (s : Z) (shape : nat) : vec * Z :=
  match shape with
  | O => ([], s)
  | S n =>
      let s' := lcg_next s in
      let x := (mu + sigma * ((s' mod 201 - 100) # 100))%Q in
      let '(v, s'') := lcg_draw mu sigma s' n in
      (x :: v, s'')
  end.

#[export] Instance Lcg_initializer : Initializer Lcg :=
  λ i shape,
    let '(v, s) := lcg_draw (lcg_mu i) (lcg_sigma i) (lcg_state i) shape in
    (v, mkLcg (lcg_mu i) (lcg_sigma i) s).

Definition Lcg_Normal (mu sigma : Q) (random_state : option nat) : Lcg :=
  mkLcg mu sigma (match random_state with Some n => Z.of_nat n | None => 0%Z end).

(** A stateless initializer: every vector is [shape] copies of one value
    (the library's [Constant] initializer). *)
Record Constant : Type := mkConstant { const_value : Q }.

#[export] Instance Constant_initializer : Initializer Constant :=
  λ i shape, (replicate shape (const_value i), i).

(** ** Well-formed worlds and the contracts of the collaborators *)

Section Contracts.

Context {K : Type} {EqK : EqDecision K} {CountK : Countable K}.
Context {O I : Type} `{!Optimizer K O} `{!Initializer I}.

Implicit Types (w : World (K:=K) (O:=O) (I:=I)) (m : FunkMF (K:=K)).
Implicit Types (user item key : K) (d g : gmap K vec) (s : I) (o : O).

(** The three locations the model holds are objects of the heap. *)
Definition refs_ok w : Prop :=
  is_Some (optimizers (heap w) !! u_optimizer (self w)) ∧
  is_Some (optimizers (heap w) !! i_optimizer (self w)) ∧
  is_Some (initializers (heap w) !! initializer (self w)).

(** Every stored vector has [n_factors] entries. *)
Definition shapes_ok w : Prop :=
  map_Forall (λ _ v, length v = n_factors (self w)) (u_latents (self w)) ∧
  map_Forall (λ _ v, length v = n_factors (self w)) (i_latents (self w)).

Definition wf w : Prop := refs_ok w ∧ shapes_ok w.

(** Section 3: the initializer yields a vector of [shape] values. *)
Definition initializer_contract : Prop :=
  ∀ s (shape : nat), length (initializer_call s shape).1 = shape.

(** Section 4.3: the keys outside the gradients are returned unchanged and
    a key of the gradients keeps a vector of the same size. *)
Definition optimizer_contract : Prop :=
  ∀ o d g,
    (∀ key, g !! key = None → (update_after_pred o d g).1 !! key = d !! key) ∧
    (∀ key gk v, g !! key = Some gk → d !! key = Some v →
       length gk = length v →
       ∃ v', (update_after_pred o d g).1 !! key = Some v' ∧
             length v' = length v).

(** The store contract of section 4.1 as a pure function: the vector of
    [key], the store and the initializer after the access. *)
Definition get_or_init d key s (shape : nat) : vec * gmap K vec * I :=
  match d !! key with
  | Some v => (v, d, s)
  | None =>
      let '(v, s') := initializer_call s shape in (v, <[key := v]> d, s')
  end.

Definition set_initializer_state (l : loc) s (h : Heap (O:=O) (I:=I)) :=
  mkHeap (optimizers h) (<[l := s]> (initializers h)).

Definition set_optimizer_state (l : loc) o (h : Heap (O:=O) (I:=I)) :=
  mkHeap (<[l := o]> (optimizers h)) (initializers h).

End Contracts.

(** ** Sequences of calls *)

(** The two public operations, as a caller issues them. *)
Inductive call (K : Type) : Type :=
  | Predict (user item : K)
  | FitOne (user item : K) (y : target).
Arguments Predict {K} user item.
Arguments FitOne {K} user item y.

Definition call_user {K} (c : call K) : K :=
  match c with Predict user _ | FitOne user _ _ => user end.

Definition call_item {K} (c : call K) : K :=
  match c with Predict _ item | FitOne _ item _ => item end.

Section Runs.

Context {K : Type} `{Countable K}.
Context {O I : Type} `{!Optimizer K O} `{!Initializer I}.

(** The state a call leaves, whether it returns or raises. *)
Definition do_call (c : call K) (w : World (K:=K) (O:=O) (I:=I)) : World :=
  match c with
  | Predict user item => (_predict_one user item w).2
  | FitOne user item y => (_fit_one user item y w).2
  end.

(** An interleaved sequence of calls, from left to right. *)
Definition run (cs : list (call K)) (w : World) : World :=
  foldl (λ w c, do_call c w) w cs.

End Runs.

(** ** Concrete worlds *)

Module Examples.

(** The default clip bound, [1e12]. *)
Definition big : Q := 1000000000000.

(** An empty heap, and [FunkMF(n_factors=2, random_state=11)]: string
    keys, the default SGD on both sides, the default loss, the default
    (seeded) initializer. *)
Definition heap0 : Heap (O:=SGD) (I:=Lcg) := mkHeap ∅ ∅.

Definition model0 : World (K:=string) :=
  __init__ SGD_new Lcg_Normal 2 None None 0 None big (Some 11%nat) heap0.

(** [FunkMF(n_factors=0, random_state=11)]. *)
Definition model_no_factors : World (K:=string) :=
  __init__ SGD_new Lcg_Normal 0 None None 0 None big (Some 11%nat) heap0.

(** A model whose two unit vectors are already stored, with the default SGD
    on both sides. *)
Definition model_unit (l2 clip_gradient : Q) :
    World (K:=string) (O:=SGD) (I:=Lcg) :=
  mkWorld
    (mkFunkMF 1 0 1 Squared l2 0 clip_gradient None
              {[ "Alice"%string := [1%Q] ]} {[ "Superman"%string := [1%Q] ]})
    (mkHeap {[ 0%nat := SGD_new; 1%nat := SGD_new ]}
            {[ 0%nat := Lcg_Normal 0 (1 # 10) None ]}).


(** One momentum optimizer object, at location 0, and
    [FunkMF(n_factors=2, optimizer=<that object>, random_state=11)] with
    integer keys. *)
Definition momentum0 : Momentum nat := mkMomentum (1 # 10) (9 # 10) ∅.

Definition heap_momentum : Heap (O:=Momentum nat) (I:=Lcg) :=
  mkHeap {[ 0%nat := momentum0 ]} ∅.

Definition model_shared : World (K:=nat) :=
  __init__ momentum0 Lcg_Normal 2 (Some 0%nat) None 0 None big
           (Some 11%nat) heap_momentum.

(** The same model with one momentum object per side. *)
Definition model_independent : World (K:=nat) :=
  mkWorld
    (mkFunkMF 2 0 1 Squared 0 0 big (Some 11%nat) ∅ ∅)
    (mkHeap {[ 0%nat := momentum0; 1%nat := momentum0 ]}
            {[ 0%nat := Lcg_Normal 0 (1 # 10) (Some 11%nat) ]}).

(** [model_unit] with one SGD object stored on both sides. *)
Definition model_unit_shared (l2 clip_gradient : Q) :
    World (K:=string) (O:=SGD) (I:=Lcg) :=
  mkWorld
    (mkFunkMF 1 0 0 Squared l2 0 clip_gradient None
              {[ "Alice"%string := [1%Q] ]} {[ "Superman"%string := [1%Q] ]})
    (mkHeap {[ 0%nat := SGD_new ]}
            {[ 0%nat := Lcg_Normal 0 (1 # 10) None ]}).




(** A second [FunkMF(n_factors=2, random_state=11)], built after
    [model0]. *)
Definition model0_again : World (K:=string) :=
  __init__ SGD_new Lcg_Normal 2 None None 0 None big (Some 11%nat)
           (heap model0).

(** Two runs that reach the user keys in the order u1, u2 and the item
    keys in the order i1, i2, interleaved differently. *)
Definition run_a : list (call string) :=
  [Predict "u1" "i1"; Predict "u2" "i2"]%string.
Definition run_b : list (call string) :=
  [Predict "u1" "i1"; Predict "u1" "i2"; Predict "u2" "i2"]%string.

End Examples.

(** ** Fitting the current prediction *)


Section Decay.

Context {K : Type} `{Countable K}.
Context {O I : Type} `{!Optimizer K O} `{!Initializer I}.



End Decay.


(** The conditions a round of [fit_current_prediction] keeps: plain SGD with
    learning rate [eta] on both sides, a loss whose gradient is zero at the
    prediction, a positive clip bound, both vectors stored and of one
    size. *)
Section DecayReady.

Context {K : Type} `{Countable K}.
Context {I : Type} `{!Initializer I}.


End DecayReady.

(** * Properties *)

Section Properties.

Context {K : Type} {EqK : EqDecision K} {CountK : Countable K}.
Context {O I : Type} `{!Optimizer K O} `{!Initializer I}.

Implicit Types (w : World (K:=K) (O:=O) (I:=I)) (m : FunkMF (K:=K)).
Implicit Types (user item key : K) (d g : gmap K vec) (s : I) (o : O).

Lemma set_u_latents_id m : set_u_latents (u_latents m) m = m.
Proof. by destruct m. Qed.

Lemma set_i_latents_id m : set_i_latents (i_latents m) m = m.
Proof. by destruct m. Qed.

Lemma set_initializer_state_id l s (h : Heap (O:=O) (I:=I)) :
  initializers h !! l = Some s → set_initializer_state l s h = h.
Proof.
  intros Hl. destruct h as [os is_]. unfold set_initializer_state. simpl in *.
  by rewrite insert_id.
Qed.

Lemma u_latents_getitem_spec w user s :
  initializers (heap w) !! initializer (self w) = Some s →
  u_latents_getitem user w =
    let '(v, d, s') :=
      get_or_init (u_latents (self w)) user s (n_factors (self w)) in
    (Return v, mkWorld (set_u_latents d (self w))
                       (set_initializer_state (initializer (self w)) s' (heap w))).
Proof.
  intros Hs. unfold u_latents_getitem, defaultdict_getitem, bind, attr,
    get_or_init. simpl.
  destruct (u_latents (self w) !! user) as [v|] eqn:Hu.
  - unfold ret. rewrite set_u_latents_id, set_initializer_state_id by done.
    by destruct w.
  - unfold random_latents. rewrite Hs.
    by destruct (initializer_call s (n_factors (self w))) as [v s'].
Qed.

Lemma i_latents_getitem_spec w item s :
  initializers (heap w) !! initializer (self w) = Some s →
  i_latents_getitem item w =
    let '(v, d, s') :=
      get_or_init (i_latents (self w)) item s (n_factors (self w)) in
    (Return v, mkWorld (set_i_latents d (self w))
                       (set_initializer_state (initializer (self w)) s' (heap w))).
Proof.
  intros Hs. unfold i_latents_getitem, defaultdict_getitem, bind, attr,
    get_or_init. simpl.
  destruct (i_latents (self w) !! item) as [v|] eqn:Hu.
  - unfold ret. rewrite set_i_latents_id, set_initializer_state_id by done.
    by destruct w.
  - unfold random_latents. rewrite Hs.
    by destruct (initializer_call s (n_factors (self w))) as [v s'].
Qed.

Lemma get_or_init_lookup d key s shape :
  (get_or_init d key s shape).1.2 !! key = Some (get_or_init d key s shape).1.1.
Proof.
  unfold get_or_init. destruct (d !! key) as [v|] eqn:Hd; [done|].
  destruct (initializer_call s shape) as [v s']. simpl. apply lookup_insert_eq.
Qed.

Lemma get_or_init_lookup_ne d key key' s shape :
  key ≠ key' → (get_or_init d key s shape).1.2 !! key' = d !! key'.
Proof.
  intros Hne. unfold get_or_init. destruct (d !! key) as [v|] eqn:Hd; [done|].
  destruct (initializer_call s shape) as [v s']. simpl.
  by apply lookup_insert_ne.
Qed.

Lemma get_or_init_dom d key s shape :
  dom (get_or_init d key s shape).1.2 = {[key]} ∪ dom d.
Proof.
  unfold get_or_init. destruct (d !! key) as [v|] eqn:Hd.
  - simpl. apply elem_of_dom_2 in Hd. apply set_eq. intros x.
    rewrite elem_of_union, elem_of_singleton.
    split; [by right | by intros [-> | ?]].
  - destruct (initializer_call s shape) as [v s']. simpl. apply dom_insert_L.
Qed.

Lemma get_or_init_shapes d key s shape :
  initializer_contract →
  map_Forall (λ _ v, length v = shape) d →
  map_Forall (λ _ v, length v = shape) (get_or_init d key s shape).1.2.
Proof.
  intros Hc Hd. unfold get_or_init. destruct (d !! key) as [v|] eqn:Hk; [done|].
  pose proof (Hc s shape) as Hlen.
  destruct (initializer_call s shape) as [v s']. simpl in *.
  by apply map_Forall_insert_2.
Qed.

Lemma u_latents_getitem_present w user v :
  u_latents (self w) !! user = Some v → u_latents_getitem user w = (Return v, w).
Proof.
  intros Hu. unfold u_latents_getitem, defaultdict_getitem, bind, attr. simpl.
  by rewrite Hu.
Qed.

Lemma i_latents_getitem_present w item v :
  i_latents (self w) !! item = Some v → i_latents_getitem item w = (Return v, w).
Proof.
  intros Hi. unfold i_latents_getitem, defaultdict_getitem, bind, attr. simpl.
  by rewrite Hi.
Qed.

Lemma np_dot_same_length (a b : vec) :
  length a = length b → np.dot a b = Return (np.sum_products a b).
Proof. intros Hl. unfold np.dot. by rewrite decide_True. Qed.

(** [_predict_one] against the pure store function: the user store is read
    first, then the item store, with the initializer left by the first
    access. *)
Lemma predict_one_get_or_init w user item s :
  initializers (heap w) !! initializer (self w) = Some s →
  _predict_one user item w =
    let n := n_factors (self w) in
    let '(u, du, s1) := get_or_init (u_latents (self w)) user s n in
    let '(i, di, s2) := get_or_init (i_latents (self w)) item s1 n in
    (np.dot u i,
     mkWorld (set_i_latents di (set_u_latents du (self w)))
             (set_initializer_state (initializer (self w)) s2 (heap w))).
Proof.
  intros Hs. unfold _predict_one, bind.
  rewrite (u_latents_getitem_spec w user s Hs). simpl.
  destruct (get_or_init (u_latents (self w)) user s (n_factors (self w)))
    as [[u du] s1].
  erewrite i_latents_getitem_spec; last by (simpl; apply lookup_insert_eq).
  simpl.
  destruct (get_or_init (i_latents (self w)) item s1 (n_factors (self w)))
    as [[i di] s2].
  unfold lift, set_initializer_state. simpl. by rewrite insert_insert_eq.
Qed.

(** The two optimizer steps of lines 126-127 on a world whose stores
    already hold both keys. *)
Lemma update_latents_steps w user item (g_loss : Q) u i ou oi :
  u_latents (self w) !! user = Some u →
  i_latents (self w) !! item = Some i →
  optimizers (heap w) !! u_optimizer (self w) = Some ou →
  <[u_optimizer (self w) :=
      (update_after_pred ou (u_latents (self w))
         {[ user := np.add (np.scale g_loss i) (np.scale (l2 (self w)) u) ]}).2]>
    (optimizers (heap w)) !! i_optimizer (self w) = Some oi →
  update_latents user item g_loss w =
    let ru := update_after_pred ou (u_latents (self w))
         {[ user := np.add (np.scale g_loss i) (np.scale (l2 (self w)) u) ]} in
    let ri := update_after_pred oi (i_latents (self w))
         {[ item := np.add (np.scale g_loss u) (np.scale (l2 (self w)) i) ]} in
    (Return tt,
     mkWorld (set_i_latents ri.1 (set_u_latents ru.1 (self w)))
             (set_optimizer_state (i_optimizer (self w)) ri.2
                (set_optimizer_state (u_optimizer (self w)) ru.2 (heap w)))).
Proof.
  intros Hu Hi Hou Hoi. unfold update_latents, bind.
  rewrite (i_latents_getitem_present w item i Hi).
  unfold attr. simpl.
  rewrite !(u_latents_getitem_present w user u Hu).
  rewrite (i_latents_getitem_present w item i Hi).
  unfold optimizer_step at 1. rewrite Hou.
  destruct (update_after_pred ou (u_latents (self w)) _) as [du ou'] eqn:Eu.
  simpl in Hoi. unfold optimizer_step. simpl. rewrite Hoi.
  by destruct (update_after_pred oi (i_latents (self w)) _) as [di oi'] eqn:Ei.
Qed.

Lemma predict_one_inv w user item s r w1 :
  initializers (heap w) !! initializer (self w) = Some s →
  _predict_one user item w = (r, w1) →
  ∃ u i,
    u_latents (self w1) !! user = Some u ∧
    i_latents (self w1) !! item = Some i ∧
    r = np.dot u i ∧
    self w1 = set_i_latents (i_latents (self w1))
                (set_u_latents (u_latents (self w1)) (self w)) ∧
    optimizers (heap w1) = optimizers (heap w).
Proof.
  intros Hs Hp. rewrite (predict_one_get_or_init w user item s Hs) in Hp.
  simpl in Hp.
  pose proof (get_or_init_lookup (u_latents (self w)) user s
                (n_factors (self w))) as Hu.
  destruct (get_or_init (u_latents (self w)) user s (n_factors (self w)))
    as [[u du] s1].
  pose proof (get_or_init_lookup (i_latents (self w)) item s1
                (n_factors (self w))) as Hi.
  destruct (get_or_init (i_latents (self w)) item s1 (n_factors (self w)))
    as [[i di] s2].
  simpl in *. injection Hp as <- <-. by exists u, i.
Qed.

(** The whole of a returning [_fit_one]: the prediction, then one optimizer
    step per side on the gradients built from the vectors the prediction
    leaves. *)
Lemma fit_one_snapshot_steps w user item y y_pred w1 raw :
  refs_ok w →
  _predict_one user item w = (Return y_pred, w1) →
  gradient (loss (self w)) y y_pred = Return raw →
  ∃ u i ou oi,
    u_latents (self w1) !! user = Some u ∧
    i_latents (self w1) !! item = Some i ∧
    Return y_pred = np.dot u i ∧
    let g := clamp raw (- clip_gradient (self w)) (clip_gradient (self w)) in
    let grad_u : gmap K vec :=
      {[ user := np.add (np.scale g i) (np.scale (l2 (self w)) u) ]} in
    let grad_i : gmap K vec :=
      {[ item := np.add (np.scale g u) (np.scale (l2 (self w)) i) ]} in
    optimizers (heap w1) !! u_optimizer (self w) = Some ou ∧
    let ru := update_after_pred ou (u_latents (self w1)) grad_u in
    <[u_optimizer (self w) := ru.2]> (optimizers (heap w1))
      !! i_optimizer (self w) = Some oi ∧
    let ri := update_after_pred oi (i_latents (self w1)) grad_i in
    _fit_one user item y w =
      (Return tt,
       mkWorld (set_i_latents ri.1 (set_u_latents ru.1 (self w1)))
               (set_optimizer_state (i_optimizer (self w)) ri.2
                  (set_optimizer_state (u_optimizer (self w)) ru.2
                     (heap w1)))).
Proof.
  intros (Hou & Hoi & [s Hs]) Hp Hloss.
  destruct (predict_one_inv w user item s _ _ Hs Hp)
    as (u & i & Hu & Hi & Hdot & Hself & Hopts).
  destruct Hou as [ou Hou]. rewrite <- Hopts in Hou, Hoi.
  set (g := clamp raw (- clip_gradient (self w)) (clip_gradient (self w))).
  set (ru := update_after_pred ou (u_latents (self w1))
         {[ user := np.add (np.scale g i) (np.scale (l2 (self w)) u) ]}).
  assert (∃ oi, <[u_optimizer (self w) := ru.2]> (optimizers (heap w1))
                  !! i_optimizer (self w) = Some oi) as [oi Hoi'].
  { rewrite lookup_insert. case_decide; [by eexists|].
    destruct Hoi as [oi Hoi]. by exists oi. }
  exists u, i, ou, oi. do 4 (split; [done|]).
  split; [done|]. simpl.
  unfold _fit_one, bind. rewrite Hp. unfold attr at 1. simpl.
  assert (loss (self w1) = loss (self w)) as -> by (by rewrite Hself).
  rewrite Hloss.
  assert (clip_gradient (self w1) = clip_gradient (self w)) as ->
    by (by rewrite Hself).
  assert (u_optimizer (self w1) = u_optimizer (self w)) as Eu
    by (by rewrite Hself).
  assert (i_optimizer (self w1) = i_optimizer (self w)) as Ei
    by (by rewrite Hself).
  assert (l2 (self w1) = l2 (self w)) as El by (by rewrite Hself).
  fold g. rewrite (update_latents_steps w1 user item g u i ou oi Hu Hi).
  - by rewrite Eu, Ei, El.
  - by rewrite Eu.
  - rewrite Eu, Ei, El. exact Hoi'.
Qed.

(** C3: one [_fit_one] builds both per-vector gradients from the same
    snapshot of the two latent vectors, the one [_predict_one] leaves:
    with [g] the clamped loss gradient, the user optimizer receives
    [g * i + l2 * u] and the item optimizer receives [g * u + l2 * i] for
    the same [u] and [i], and each new store is the optimizer's answer to
    the old store and that gradient. *)
Theorem fit_one_gradients_from_snapshot w user item y y_pred w1 raw :
  refs_ok w →
  _predict_one user item w = (Return y_pred, w1) →
  gradient (loss (self w)) y y_pred = Return raw →
  ∃ u i ou oi,
    u_latents (self w1) !! user = Some u ∧
    i_latents (self w1) !! item = Some i ∧
    Return y_pred = np.dot u i ∧
    let g := clamp raw (- clip_gradient (self w)) (clip_gradient (self w)) in
    let grad_u : gmap K vec :=
      {[ user := np.add (np.scale g i) (np.scale (l2 (self w)) u) ]} in
    let grad_i : gmap K vec :=
      {[ item := np.add (np.scale g u) (np.scale (l2 (self w)) i) ]} in
    optimizers (heap w1) !! u_optimizer (self w) = Some ou ∧
    let ru := update_after_pred ou (u_latents (self w1)) grad_u in
    <[u_optimizer (self w) := ru.2]> (optimizers (heap w1))
      !! i_optimizer (self w) = Some oi ∧
    let ri := update_after_pred oi (i_latents (self w1)) grad_i in
    _fit_one user item y w =
      (Return tt,
       mkWorld (set_i_latents ri.1 (set_u_latents ru.1 (self w1)))
               (set_optimizer_state (i_optimizer (self w)) ri.2
                  (set_optimizer_state (u_optimizer (self w)) ru.2
                     (heap w1)))).
Proof. apply fit_one_snapshot_steps. Qed.

(** C4: [_predict_one] returns the inner product of the user vector and the
    item vector, each the stored one or, for a key not yet in its store,
    the one the initializer yields at this access; the only change of state
    is the insertion of those new keys (with the advance of the
    initializer that made them): the optimizers and every other entry are
    left as they were. *)
Theorem predict_one_dot_lazy w user item s :
  initializers (heap w) !! initializer (self w) = Some s →
  shapes_ok w →
  initializer_contract (I:=I) →
  let n := n_factors (self w) in
  let ru := get_or_init (u_latents (self w)) user s n in
  let ri := get_or_init (i_latents (self w)) item ru.2 n in
  _predict_one user item w =
    (Return (np.sum_products ru.1.1 ri.1.1),
     mkWorld (set_i_latents ri.1.2 (set_u_latents ru.1.2 (self w)))
             (set_initializer_state (initializer (self w)) ri.2 (heap w))) ∧
  ru.1.2 !! user = Some ru.1.1 ∧
  ri.1.2 !! item = Some ri.1.1 ∧
  (∀ key, key ≠ user → ru.1.2 !! key = u_latents (self w) !! key) ∧
  (∀ key, key ≠ item → ri.1.2 !! key = i_latents (self w) !! key) ∧
  (∀ v, u_latents (self w) !! user = Some v →
        ru = (v, u_latents (self w), s)) ∧
  (∀ v, i_latents (self w) !! item = Some v →
        ri = (v, i_latents (self w), ru.2)) ∧
  (u_latents (self w) !! user = None →
     ru.1.1 = (initializer_call s n).1 ∧
     ru.1.2 = <[user := ru.1.1]> (u_latents (self w))) ∧
  (i_latents (self w) !! item = None →
     ri.1.1 = (initializer_call ru.2 n).1 ∧
     ri.1.2 = <[item := ri.1.1]> (i_latents (self w))).
Proof.
  intros Hs [Hshu Hshi] Hc n ru ri.
  assert (ru.1.2 !! user = Some ru.1.1) as Hu by apply get_or_init_lookup.
  assert (ri.1.2 !! item = Some ri.1.1) as Hi by apply get_or_init_lookup.
  split; [|split; [done|split; [done|]]].
  - rewrite (predict_one_get_or_init w user item s Hs). simpl.
    pose proof (get_or_init_shapes (u_latents (self w)) user s n Hc Hshu) as Su.
    pose proof (get_or_init_shapes (i_latents (self w)) item ru.2 n Hc Hshi)
      as Si.
    apply (map_Forall_lookup_1 _ _ _ _ Su) in Hu.
    apply (map_Forall_lookup_1 _ _ _ _ Si) in Hi.
    subst ri ru n.
    destruct (get_or_init (u_latents (self w)) user s (n_factors (self w)))
      as [[u du] s1].
    simpl in *.
    destruct (get_or_init (i_latents (self w)) item s1 (n_factors (self w)))
      as [[i di] s2].
    simpl in *. by rewrite np_dot_same_length by congruence.
  - split; [intros; by apply get_or_init_lookup_ne|].
    split; [intros; by apply get_or_init_lookup_ne|].
    subst ri ru. unfold get_or_init.
    repeat split.
    + intros v ->. done.
    + intros v ->. done.
    + rewrite H. by destruct (initializer_call s n).
    + rewrite H. by destruct (initializer_call s n).
    + rewrite H. by destruct (initializer_call _ n).
    + rewrite H. by destruct (initializer_call _ n).
Qed.

Lemma clamp_bounds (x lo hi : Q) :
  (lo <= hi)%Q → (lo <= clamp x lo hi)%Q ∧ (clamp x lo hi <= hi)%Q.
Proof.
  intros Hle. unfold clamp.
  destruct (Qlt_le_dec hi x); destruct (Qlt_le_dec _ lo); split; lra.
Qed.

Lemma clamp_inside (x lo hi : Q) :
  (lo <= x)%Q → (x <= hi)%Q → clamp x lo hi = x.
Proof.
  intros H1 H2. unfold clamp.
  destruct (Qlt_le_dec hi x); [lra|]. destruct (Qlt_le_dec x lo); [lra|done].
Qed.

Lemma clamp_above (x lo hi : Q) :
  (lo <= hi)%Q → (hi < x)%Q → clamp x lo hi = hi.
Proof.
  intros H1 H2. unfold clamp.
  destruct (Qlt_le_dec hi x); [|lra]. destruct (Qlt_le_dec hi lo); [lra|done].
Qed.

Lemma clamp_below (x lo hi : Q) :
  (lo <= hi)%Q → (x < lo)%Q → clamp x lo hi = lo.
Proof.
  intros H1 H2. unfold clamp.
  destruct (Qlt_le_dec hi x); [lra|]. destruct (Qlt_le_dec x lo); [done|lra].
Qed.

Lemma fit_one_after_predict w user item y y_pred w1 raw :
  refs_ok w →
  _predict_one user item w = (Return y_pred, w1) →
  gradient (loss (self w)) y y_pred = Return raw →
  _fit_one user item y w =
    update_latents user item
      (clamp raw (- clip_gradient (self w)) (clip_gradient (self w))) w1.
Proof.
  intros (_ & _ & [s Hs]) Hp Hloss.
  destruct (predict_one_inv w user item s _ _ Hs Hp)
    as (u & i & _ & _ & _ & Hself & _).
  unfold _fit_one, bind. rewrite Hp. unfold attr at 1. simpl.
  assert (loss (self w1) = loss (self w)) as -> by (by rewrite Hself).
  rewrite Hloss.
  by assert (clip_gradient (self w1) = clip_gradient (self w)) as ->
    by (by rewrite Hself).
Qed.

(** C5: with a clip bound [c > 0], the loss gradient the vector updates use
    is the raw loss gradient clamped to the interval from [-c] to [c]; a raw
    gradient above [c] gives the very update of the gradient [c], one below
    [-c] the very update of the gradient [-c], and one inside the interval
    is used as it is. *)
Theorem fit_one_clips_loss_gradient w user item y y_pred w1 raw :
  refs_ok w →
  (0 < clip_gradient (self w))%Q →
  _predict_one user item w = (Return y_pred, w1) →
  gradient (loss (self w)) y y_pred = Return raw →
  let c := clip_gradient (self w) in
  let g := clamp raw (- c) c in
  _fit_one user item y w = update_latents user item g w1 ∧
  (- c <= g)%Q ∧ (g <= c)%Q ∧
  ((- c <= raw)%Q → (raw <= c)%Q → g = raw) ∧
  ((c < raw)%Q →
     g = c ∧ _fit_one user item y w = update_latents user item c w1) ∧
  ((raw < - c)%Q →
     g = (- c)%Q ∧
     _fit_one user item y w = update_latents user item (- c) w1).
Proof.
  intros Hrefs Hc Hp Hloss c g.
  pose proof (fit_one_after_predict w user item y y_pred w1 raw Hrefs Hp Hloss)
    as Hfit. fold c in Hfit. fold g in Hfit.
  assert (- c <= c)%Q as Hle by (subst c; lra).
  destruct (clamp_bounds raw (- c) c Hle) as [Hlo Hhi].
  split; [done|]. split; [done|]. split; [done|].
  split; [intros; by apply clamp_inside|].
  split.
  - intros Hgt. assert (g = c) as Hg by (by apply clamp_above).
    split; [done|]. by rewrite <- Hg.
  - intros Hlt. assert (g = (- c)%Q) as Hg by (by apply clamp_below).
    split; [done|]. by rewrite <- Hg.
Qed.

Lemma get_or_init_preserves d key key' s shape v :
  d !! key' = Some v → (get_or_init d key s shape).1.2 !! key' = Some v.
Proof.
  intros Hd. destruct (decide (key = key')) as [->|Hne].
  - unfold get_or_init. by rewrite Hd.
  - by rewrite get_or_init_lookup_ne.
Qed.

(** What a call of [_predict_one] leaves behind, whatever its outcome. *)
Lemma predict_one_post w user item r w1 :
  refs_ok w →
  _predict_one user item w = (r, w1) →
  self w1 = set_i_latents (i_latents (self w1))
              (set_u_latents (u_latents (self w1)) (self w)) ∧
  optimizers (heap w1) = optimizers (heap w) ∧
  dom (initializers (heap w1)) = dom (initializers (heap w)) ∧
  dom (u_latents (self w1)) = {[user]} ∪ dom (u_latents (self w)) ∧
  dom (i_latents (self w1)) = {[item]} ∪ dom (i_latents (self w)) ∧
  (∀ key v, u_latents (self w) !! key = Some v →
            u_latents (self w1) !! key = Some v) ∧
  (∀ key v, i_latents (self w) !! key = Some v →
            i_latents (self w1) !! key = Some v) ∧
  (initializer_contract (I:=I) → shapes_ok w → shapes_ok w1 ∧ is_Return r).
Proof.
  intros (_ & _ & [s Hs]) Hp.
  rewrite (predict_one_get_or_init w user item s Hs) in Hp. simpl in Hp.
  pose proof (get_or_init_dom (u_latents (self w)) user s
                (n_factors (self w))) as Du.
  pose proof (get_or_init_preserves (u_latents (self w)) user) as Pu.
  pose proof (get_or_init_lookup (u_latents (self w)) user s
                (n_factors (self w))) as Lu.
  pose proof (λ Hc, get_or_init_shapes (u_latents (self w)) user s
                (n_factors (self w)) Hc) as Su.
  specialize (λ key v, Pu key s (n_factors (self w)) v).
  destruct (get_or_init (u_latents (self w)) user s (n_factors (self w)))
    as [[u du] s1].
  pose proof (get_or_init_dom (i_latents (self w)) item s1
                (n_factors (self w))) as Di.
  pose proof (get_or_init_preserves (i_latents (self w)) item) as Pi.
  pose proof (get_or_init_lookup (i_latents (self w)) item s1
                (n_factors (self w))) as Li.
  pose proof (λ Hc, get_or_init_shapes (i_latents (self w)) item s1
                (n_factors (self w)) Hc) as Si.
  specialize (λ key v, Pi key s1 (n_factors (self w)) v).
  destruct (get_or_init (i_latents (self w)) item s1 (n_factors (self w)))
    as [[i di] s2].
  simpl in *. injection Hp as <- <-. simpl.
  split; [done|]. split; [done|]. split.
  { rewrite dom_insert_L. apply elem_of_dom_2 in Hs.
    apply set_eq. intros x. rewrite elem_of_union, elem_of_singleton.
    split; [by intros [-> | ?] | by right]. }
  do 4 (split; [done|]).
  intros Hc [Hu' Hi']. split; [split; [by apply Su | by apply Si]|].
  apply (map_Forall_lookup_1 _ _ _ _ (Su Hc Hu')) in Lu.
  apply (map_Forall_lookup_1 _ _ _ _ (Si Hc Hi')) in Li.
  rewrite np_dot_same_length by congruence. done.
Qed.

(** C2 as amended: a [_fit_one] that raises has performed no optimizer
    step and has modified no stored vector: it leaves the state that
    [_predict_one] leaves, in which the only change is the lazy insertion of
    the user key and of the item key. *)
Theorem fit_one_raise_keeps_predict_state w user item y e w' :
  refs_ok w →
  _fit_one user item y w = (Raise e, w') →
  w' = (_predict_one user item w).2 ∧
  optimizers (heap w') = optimizers (heap w) ∧
  dom (u_latents (self w')) = {[user]} ∪ dom (u_latents (self w)) ∧
  dom (i_latents (self w')) = {[item]} ∪ dom (i_latents (self w)) ∧
  (∀ key v, u_latents (self w) !! key = Some v →
            u_latents (self w') !! key = Some v) ∧
  (∀ key v, i_latents (self w) !! key = Some v →
            i_latents (self w') !! key = Some v).
Proof.
  intros Hrefs Hfit.
  destruct (_predict_one user item w) as [r w1] eqn:Hp.
  destruct (predict_one_post w user item r w1 Hrefs Hp)
    as (Hself & Hopts & _ & Du & Di & Pu & Pi & _).
  assert (w' = w1) as ->; [|done].
  destruct r as [y_pred|e1].
  - destruct (gradient (loss (self w)) y y_pred) as [raw|e2] eqn:Hloss.
    + destruct (fit_one_snapshot_steps w user item y y_pred w1 raw
                  Hrefs Hp Hloss) as (u & i & ou & oi & _ & _ & _ & _ & _ & Hok).
      simpl in Hok. rewrite Hok in Hfit. discriminate.
    + unfold _fit_one, bind in Hfit. rewrite Hp in Hfit.
      unfold attr at 1 in Hfit. simpl in Hfit.
      assert (loss (self w1) = loss (self w)) as El by (by rewrite Hself).
      rewrite El, Hloss in Hfit. by injection Hfit.
  - unfold _fit_one, bind in Hfit. rewrite Hp in Hfit. by injection Hfit.
Qed.

Lemma np_add_length (a b : vec) :
  length a = length b → length (np.add a b) = length a.
Proof. intros Hl. unfold np.add. rewrite length_zip_with. lia. Qed.

Lemma np_scale_length (c : Q) (a : vec) : length (np.scale c a) = length a.
Proof. apply length_map. Qed.

Lemma optimizer_contract_dom o d g key gk v :
  optimizer_contract (K:=K) (O:=O) →
  g = {[ key := gk ]} → d !! key = Some v → length gk = length v →
  dom (update_after_pred o d g).1 = dom d ∧
  (∀ n, map_Forall (λ _ x, length x = n) d →
        map_Forall (λ _ x, length x = n) (update_after_pred o d g).1).
Proof.
  intros Hc -> Hd Hl. destruct (Hc o d {[ key := gk ]}) as [Hother Hkey].
  destruct (Hkey key gk v (lookup_singleton_eq _ _) Hd Hl) as (v' & Hv' & Hl').
  split.
  - apply set_eq. intros x. rewrite !elem_of_dom.
    destruct (decide (x = key)) as [->|Hne].
    + rewrite Hv', Hd. split; eauto.
    + by rewrite Hother by (by apply lookup_singleton_ne).
  - intros n Hall x vx Hx. destruct (decide (x = key)) as [->|Hne].
    + rewrite Hv' in Hx. injection Hx as <-. rewrite Hl'.
      by apply (Hall key v).
    + rewrite Hother in Hx by (by apply lookup_singleton_ne).
      by apply (Hall x vx).
Qed.

(** [_fit_one] preserves well-formedness and adds exactly the two keys it
    is called with. *)
Lemma fit_one_post w user item y r w' :
  wf w → initializer_contract (I:=I) → optimizer_contract (K:=K) (O:=O) →
  _fit_one user item y w = (r, w') →
  wf w' ∧
  n_factors (self w') = n_factors (self w) ∧
  dom (u_latents (self w')) = {[user]} ∪ dom (u_latents (self w)) ∧
  dom (i_latents (self w')) = {[item]} ∪ dom (i_latents (self w)).
Proof.
  intros [Hrefs Hsh] Hic Hoc Hfit.
  destruct (_predict_one user item w) as [rp w1] eqn:Hp.
  destruct (predict_one_post w user item rp w1 Hrefs Hp)
    as (Hself & Hopts & Hinits & Du & Di & _ & _ & Hsh1).
  destruct (Hsh1 Hic Hsh) as [[Hshu Hshi] Hret].
  assert (n_factors (self w1) = n_factors (self w)) as En
    by (by rewrite Hself).
  assert (refs_ok w1) as Hrefs1.
  { destruct Hrefs as (R1 & R2 & R3). unfold refs_ok. rewrite Hopts.
    assert (u_optimizer (self w1) = u_optimizer (self w)) as ->
      by (by rewrite Hself).
    assert (i_optimizer (self w1) = i_optimizer (self w)) as ->
      by (by rewrite Hself).
    assert (initializer (self w1) = initializer (self w)) as ->
      by (by rewrite Hself).
    split; [done|]. split; [done|].
    apply elem_of_dom. rewrite Hinits. by apply elem_of_dom. }
  destruct rp as [y_pred|]; [|done].
  destruct (gradient (loss (self w)) y y_pred) as [raw|e] eqn:Hloss.
  - destruct (fit_one_snapshot_steps w user item y y_pred w1 raw
                Hrefs Hp Hloss)
      as (u & i & ou & oi & Hu & Hi & _ & Hou & Hoi & Hok).
    simpl in Hou, Hoi, Hok. rewrite Hok in Hfit. injection Hfit as <- <-.
    pose proof (map_Forall_lookup_1 _ _ _ _ Hshu Hu) as Lu.
    pose proof (map_Forall_lookup_1 _ _ _ _ Hshi Hi) as Li.
    simpl in Lu, Li.
    match goal with
    | |- context [update_after_pred ou _ ?g] =>
        destruct (optimizer_contract_dom ou (u_latents (self w1)) g user _ u
                    Hoc eq_refl Hu) as [Du' Su']
    end.
    { rewrite np_add_length; rewrite !np_scale_length; congruence. }
    match goal with
    | |- context [update_after_pred oi _ ?g] =>
        destruct (optimizer_contract_dom oi (i_latents (self w1)) g item _ i
                    Hoc eq_refl Hi) as [Di' Si']
    end.
    { rewrite np_add_length; rewrite !np_scale_length; congruence. }
    simpl. split; [split|].
    + destruct Hrefs1 as (R1 & R2 & R3). unfold refs_ok. simpl.
      assert (u_optimizer (self w1) = u_optimizer (self w)) as Eu
        by (by rewrite Hself).
      assert (i_optimizer (self w1) = i_optimizer (self w)) as Ei
        by (by rewrite Hself).
      rewrite Eu, Ei in *.
      split; [|split; [|done]].
      * rewrite lookup_insert. case_decide; [by eexists|].
        rewrite lookup_insert_eq. by eexists.
      * rewrite lookup_insert_eq. by eexists.
    + unfold shapes_ok. simpl. split; [by apply Su'|by apply Si'].
    + split; [done|]. by rewrite Du', Di'.
  - unfold _fit_one, bind in Hfit. rewrite Hp in Hfit.
    unfold attr at 1 in Hfit. simpl in Hfit.
    assert (loss (self w1) = loss (self w)) as El by (by rewrite Hself).
    rewrite El, Hloss in Hfit. injection Hfit as <- <-. done.
Qed.

Lemma predict_one_wf w user item r w' :
  wf w → initializer_contract (I:=I) →
  _predict_one user item w = (r, w') →
  wf w' ∧
  n_factors (self w') = n_factors (self w) ∧
  dom (u_latents (self w')) = {[user]} ∪ dom (u_latents (self w)) ∧
  dom (i_latents (self w')) = {[item]} ∪ dom (i_latents (self w)).
Proof.
  intros [Hrefs Hsh] Hic Hp.
  destruct (predict_one_post w user item r w' Hrefs Hp)
    as (Hself & Hopts & Hinits & Du & Di & _ & _ & Hsh1).
  destruct (Hsh1 Hic Hsh) as [Hsh' _].
  split; [split; [|done]|by rewrite Hself].
  destruct Hrefs as (R1 & R2 & R3). unfold refs_ok. rewrite Hopts.
  assert (u_optimizer (self w') = u_optimizer (self w)) as ->
    by (by rewrite Hself).
  assert (i_optimizer (self w') = i_optimizer (self w)) as ->
    by (by rewrite Hself).
  assert (initializer (self w') = initializer (self w)) as ->
    by (by rewrite Hself).
  split; [done|]. split; [done|].
  apply elem_of_dom. rewrite Hinits. by apply elem_of_dom.
Qed.

Lemma do_call_post w (c : call K) :
  wf w → initializer_contract (I:=I) → optimizer_contract (K:=K) (O:=O) →
  wf (do_call c w) ∧
  n_factors (self (do_call c w)) = n_factors (self w) ∧
  dom (u_latents (self (do_call c w))) =
    {[call_user c]} ∪ dom (u_latents (self w)) ∧
  dom (i_latents (self (do_call c w))) =
    {[call_item c]} ∪ dom (i_latents (self w)).
Proof.
  intros Hwf Hic Hoc. destruct c as [user item|user item y]; simpl.
  - destruct (_predict_one user item w) as [r w'] eqn:Hp.
    by apply (predict_one_wf w user item r w').
  - destruct (_fit_one user item y w) as [r w'] eqn:Hf.
    by apply (fit_one_post w user item y r w').
Qed.

Lemma run_post (cs : list (call K)) w :
  wf w → initializer_contract (I:=I) → optimizer_contract (K:=K) (O:=O) →
  wf (run cs w) ∧
  n_factors (self (run cs w)) = n_factors (self w) ∧
  dom (u_latents (self (run cs w))) =
    list_to_set (call_user <$> cs) ∪ dom (u_latents (self w)) ∧
  dom (i_latents (self (run cs w))) =
    list_to_set (call_item <$> cs) ∪ dom (i_latents (self w)).
Proof.
  intros Hwf Hic Hoc. revert w Hwf.
  induction cs as [|c cs IH]; intros w Hwf.
  - simpl. split; [done|]. split; [done|].
    split; apply set_eq; intros x; rewrite elem_of_union, elem_of_empty;
      tauto.
  - destruct (do_call_post w c Hwf Hic Hoc) as (Hwf' & En & Du & Di).
    destruct (IH (do_call c w) Hwf') as (Hwf'' & En' & Du' & Di').
    change (run (c :: cs) w) with (run cs (do_call c w)).
    split; [done|]. split; [congruence|].
    rewrite Du', Di', Du, Di, !fmap_cons, !list_to_set_cons.
    split; apply set_eq; intros x; rewrite !elem_of_union; tauto.
Qed.

Lemma size_list_to_set_remove_dups (l : list K) :
  size (list_to_set l : gset K) = length (remove_dups l).
Proof.
  rewrite <- (size_list_to_set (C:=gset K) (remove_dups l))
    by apply NoDup_remove_dups.
  f_equal. apply set_eq. intros x.
  by rewrite !elem_of_list_to_set, elem_of_remove_dups.
Qed.

Lemma alloc_lookup {A} (a : A) (h : gmap loc A) :
  (alloc a h).2 !! (alloc a h).1 = Some a ∧
  h !! (alloc a h).1 = None ∧
  (∀ l, is_Some (h !! l) → is_Some ((alloc a h).2 !! l)).
Proof.
  unfold alloc. simpl. split; [apply lookup_insert_eq|].
  split; [apply not_elem_of_dom, is_fresh|].
  intros l Hl. rewrite lookup_insert. by case_decide.
Qed.

Lemma init_wf (SGD_default : O) (Normal : Q → Q → option nat → I)
    (n : nat) (optimizer : option loc) (loss_ : option Loss) (l2_ : Q)
    (initializer_ : option loc) (c : Q) (rs : option nat) h :
  (∀ l, optimizer = Some l → is_Some (optimizers h !! l)) →
  (∀ l, initializer_ = Some l → is_Some (initializers h !! l)) →
  let w := __init__ (K:=K) SGD_default Normal n optimizer loss_ l2_
                    initializer_ c rs h in
  wf w ∧ n_factors (self w) = n ∧
  u_latents (self w) = ∅ ∧ i_latents (self w) = ∅.
Proof.
  intros Ho Hi. unfold __init__, alloc.
  assert (∀ {A} (x y : A) (l l' : loc) (g : gmap loc A),
            is_Some (<[l := x]> (<[l' := y]> g) !! l')) as Hins.
  { intros A x y l l' g. rewrite lookup_insert. case_decide; [by eexists|].
    rewrite lookup_insert_eq. by eexists. }
  destruct optimizer as [o|]; destruct initializer_ as [i|]; simpl;
    (split; [split|done]);
    try (split; apply map_Forall_empty);
    unfold refs_ok; simpl; (split; [|split]);
    try (by apply Ho); try (by apply Hi);
    try apply Hins;
    try (rewrite lookup_insert_eq; by eexists).
Qed.

(** C7: after any interleaved sequence of [predict] and [fit_one] calls on a
    newly built model, the user store holds exactly the user keys the calls
    name, as many entries as there are distinct ones, each a vector of
    [n_factors] entries, and likewise the item store; a further call never
    removes a key.  The collaborators are taken under their contracts of
    sections 3 and 4.3. *)
Theorem stores_hold_exactly_referenced_keys
    (SGD_default : O) (Normal : Q → Q → option nat → I)
    (n : nat) (optimizer : option loc) (loss_ : option Loss) (l2_ : Q)
    (initializer_ : option loc) (c : Q) (rs : option nat) h
    (cs : list (call K)) :
  initializer_contract (I:=I) →
  optimizer_contract (K:=K) (O:=O) →
  (∀ l, optimizer = Some l → is_Some (optimizers h !! l)) →
  (∀ l, initializer_ = Some l → is_Some (initializers h !! l)) →
  let w := run cs (__init__ (K:=K) SGD_default Normal n optimizer loss_ l2_
                            initializer_ c rs h) in
  dom (u_latents (self w)) = list_to_set (call_user <$> cs) ∧
  dom (i_latents (self w)) = list_to_set (call_item <$> cs) ∧
  size (u_latents (self w)) = length (remove_dups (call_user <$> cs)) ∧
  size (i_latents (self w)) = length (remove_dups (call_item <$> cs)) ∧
  map_Forall (λ _ v, length v = n) (u_latents (self w)) ∧
  map_Forall (λ _ v, length v = n) (i_latents (self w)) ∧
  ∀ c', dom (u_latents (self w)) ⊆ dom (u_latents (self (do_call c' w))) ∧
        dom (i_latents (self w)) ⊆ dom (i_latents (self (do_call c' w))).
Proof.
  intros Hic Hoc Ho Hi w.
  destruct (init_wf SGD_default Normal n optimizer loss_ l2_ initializer_
              c rs h Ho Hi) as (Hwf0 & En0 & Eu0 & Ei0).
  destruct (run_post cs _ Hwf0 Hic Hoc) as (Hwf & En & Du & Di).
  fold w in Hwf, En, Du, Di.
  rewrite Eu0, dom_empty_L, (right_id_L ∅ (∪)) in Du.
  rewrite Ei0, dom_empty_L, (right_id_L ∅ (∪)) in Di.
  split; [done|]. split; [done|].
  split; [by rewrite <- size_dom, Du, size_list_to_set_remove_dups|].
  split; [by rewrite <- size_dom, Di, size_list_to_set_remove_dups|].
  destruct Hwf as [Hrefs [Hshu Hshi]]. rewrite En, En0 in Hshu, Hshi.
  split; [done|]. split; [done|].
  intros c'.
  destruct (do_call_post w c' (conj Hrefs (conj
              (eq_ind_r (λ k, map_Forall (λ _ v, length v = k) _) Hshu
                 (eq_trans En En0))
              (eq_ind_r (λ k, map_Forall (λ _ v, length v = k) _) Hshi
                 (eq_trans En En0)))) Hic Hoc)
    as (_ & _ & Du' & Di').
  rewrite Du', Di'. split; apply union_subseteq_r.
Qed.

(** C9: with [n_factors = 0] nothing fails: [_predict_one] returns 0, the
    inner product of two empty vectors, and whenever the loss yields a
    gradient [_fit_one] returns after handing each optimizer the empty
    vector as the gradient of its key. *)
Theorem zero_factors_degenerate w user item :
  wf w →
  initializer_contract (I:=I) →
  n_factors (self w) = 0 →
  ∃ w1,
    _predict_one user item w = (Return 0%Q, w1) ∧
    u_latents (self w1) !! user = Some [] ∧
    i_latents (self w1) !! item = Some [] ∧
    ∀ y raw,
      gradient (loss (self w)) y 0%Q = Return raw →
      ∃ ou oi,
        optimizers (heap w1) !! u_optimizer (self w) = Some ou ∧
        let ru := update_after_pred ou (u_latents (self w1))
                    {[ user := [] ]} in
        <[u_optimizer (self w) := ru.2]> (optimizers (heap w1))
          !! i_optimizer (self w) = Some oi ∧
        let ri := update_after_pred oi (i_latents (self w1))
                    {[ item := [] ]} in
        _fit_one user item y w =
          (Return tt,
           mkWorld (set_i_latents ri.1 (set_u_latents ru.1 (self w1)))
                   (set_optimizer_state (i_optimizer (self w)) ri.2
                      (set_optimizer_state (u_optimizer (self w)) ru.2
                         (heap w1)))).
Proof.
  intros [Hrefs Hsh] Hic Hn.
  destruct (_predict_one user item w) as [r w1] eqn:Hp.
  pose proof Hrefs as (_ & _ & [s Hs]).
  destruct (predict_one_inv w user item s r w1 Hs Hp)
    as (u & i & Hu & Hi & Hdot & Hself & Hopts).
  destruct (predict_one_post w user item r w1 Hrefs Hp)
    as (_ & _ & _ & _ & _ & _ & _ & Hsh1).
  destruct (Hsh1 Hic Hsh) as [[Hshu Hshi] _].
  assert (n_factors (self w1) = 0) as En by (by rewrite Hself).
  pose proof (map_Forall_lookup_1 _ _ _ _ Hshu Hu) as Lu.
  pose proof (map_Forall_lookup_1 _ _ _ _ Hshi Hi) as Li.
  simpl in Lu, Li. rewrite En in Lu, Li.
  apply nil_length_inv in Lu, Li. subst u i r.
  exists w1. split; [done|]. split; [done|]. split; [done|].
  intros y raw Hloss.
  destruct (fit_one_snapshot_steps w user item y 0%Q w1 raw
              Hrefs Hp Hloss)
    as (u & i & ou & oi & Hu' & Hi' & _ & Hou & Hoi & Hok).
  rewrite Hu in Hu'. rewrite Hi in Hi'.
  injection Hu' as <-. injection Hi' as <-.
  exists ou, oi. done.
Qed.

(** Lines 91-92: a given optimizer object is stored on both sides; left
    unset, each side gets an object of its own. *)
Lemma init_given_optimizer_aliased (SGD_default : O)
    (Normal : Q → Q → option nat → I) n (l : loc) loss_ l2_ initializer_
    c rs h :
  let w := __init__ (K:=K) SGD_default Normal n (Some l) loss_ l2_
                    initializer_ c rs h in
  u_optimizer (self w) = l ∧ i_optimizer (self w) = l ∧
  optimizers (heap w) = optimizers h.
Proof. unfold __init__. by destruct initializer_. Qed.

Lemma init_default_optimizers_distinct (SGD_default : O)
    (Normal : Q → Q → option nat → I) n loss_ l2_ initializer_ c rs h :
  let w := __init__ (K:=K) SGD_default Normal n None loss_ l2_
                    initializer_ c rs h in
  u_optimizer (self w) ≠ i_optimizer (self w) ∧
  optimizers (heap w) !! u_optimizer (self w) = Some SGD_default ∧
  optimizers (heap w) !! i_optimizer (self w) = Some SGD_default ∧
  optimizers h !! u_optimizer (self w) = None ∧
  optimizers h !! i_optimizer (self w) = None.
Proof.
  unfold __init__, alloc. destruct initializer_; simpl.
  all: set (l1 := fresh (dom (optimizers h))).
  all: set (l2' := fresh (dom (<[l1 := SGD_default]> (optimizers h)))).
  all: assert (l1 ∉ dom (optimizers h)) as F1 by apply is_fresh.
  all: assert (l2' ∉ dom (<[l1 := SGD_default]> (optimizers h))) as F2
         by apply is_fresh.
  all: assert (l1 ≠ l2') as Hne
         by (intros E; apply F2; rewrite <- E, dom_insert_L;
             apply elem_of_union_l, elem_of_singleton; done).
  all: split; [done|].
  all: split; [by rewrite lookup_insert_ne, lookup_insert_eq|].
  all: split; [by rewrite lookup_insert_eq|].
  all: split; [by apply not_elem_of_dom|].
  all: apply not_elem_of_dom; intros Hin; apply F2; rewrite dom_insert_L;
       by apply elem_of_union_r.
Qed.

(** Two [__init__] calls with the initializer unset build two initializer
    objects, each at a location of its own, both
    [Normal(mu=0, sigma=0.1, random_state)] (line 97). *)
Lemma init_unset_initializers_separate (SGD_default : O)
    (Normal : Q → Q → option nat → I) (n : nat) (optimizer : option loc)
    (loss_ : option Loss) (l2_ c : Q) (rs : option nat) h :
  let wA := __init__ (K:=K) SGD_default Normal n optimizer loss_ l2_ None c
                     rs h in
  let wB := __init__ (K:=K) SGD_default Normal n optimizer loss_ l2_ None c
                     rs (heap wA) in
  initializer (self wA) ≠ initializer (self wB) ∧
  initializers (heap wB) !! initializer (self wA)
    = Some (Normal 0%Q (1 # 10)%Q rs) ∧
  initializers (heap wB) !! initializer (self wB)
    = Some (Normal 0%Q (1 # 10)%Q rs).
Proof.
  intros wA wB.
  set (N := Normal 0%Q (1 # 10)%Q rs).
  set (lA := fresh (dom (initializers h))).
  set (iA := <[lA := N]> (initializers h)).
  set (lB := fresh (dom iA)).
  assert (initializer (self wA) = lA ∧ initializers (heap wA) = iA)
    as (EA1 & EA2) by (subst wA; unfold __init__, alloc; by destruct optimizer).
  assert (initializer (self wB) = lB ∧
          initializers (heap wB) = <[lB := N]> iA) as (EB1 & EB2).
  { subst wB. unfold __init__, alloc. rewrite EA2. by destruct optimizer. }
  assert (lB ≠ lA) as Hne.
  { intros E. apply (is_fresh (dom iA)). fold lB. rewrite E. subst iA.
    rewrite dom_insert_L. by apply elem_of_union_l, elem_of_singleton. }
  rewrite EA1, EB1, EB2. split; [done|]. split.
  - rewrite lookup_insert_ne by done. apply lookup_insert_eq.
  - apply lookup_insert_eq.
Qed.


End Properties.

(** ** The concrete collaborators meet their contracts *)

Section Collaborators.

Context {K : Type} {EqK : EqDecision K} {CountK : Countable K}.

Lemma apply_steps_lookup (d steps : gmap K vec) (key : K) :
  apply_steps d steps !! key =
    match d !! key, steps !! key with
    | Some v, Some st => Some (np.sub v st)
    | Some v, None => Some v
    | None, _ => None
    end.
Proof.
  unfold apply_steps. rewrite lookup_merge.
  by destruct (d !! key), (steps !! key).
Qed.


Lemma np_sub_length (a b : vec) :
  length a = length b → length (np.sub a b) = length a.
Proof. intros Hl. unfold np.sub. rewrite length_zip_with. lia. Qed.

Lemma SGD_contract : optimizer_contract (K:=K) (O:=SGD).
Proof.
  intros o d g. unfold update_after_pred, SGD_optimizer. simpl. split.
  - intros key Hg. rewrite apply_steps_lookup, lookup_fmap, Hg. simpl.
    by destruct (d !! key).
  - intros key gk v Hg Hd Hl. rewrite apply_steps_lookup, lookup_fmap, Hg, Hd.
    simpl. eexists. split; [done|].
    apply np_sub_length. unfold np.scale. by rewrite length_map.
Qed.


Lemma lcg_draw_length mu sigma s shape :
  length (lcg_draw mu sigma s shape).1 = shape.
Proof.
  revert s. induction shape as [|n IH]; intros s; [done|].
  simpl. specialize (IH (lcg_next s)).
  destruct (lcg_draw mu sigma (lcg_next s) n) as [v s']. simpl in *.
  by rewrite IH.
Qed.

Lemma Lcg_contract : initializer_contract (I:=Lcg).
Proof.
  intros s shape. unfold initializer_call, Lcg_initializer.
  pose proof (lcg_draw_length (lcg_mu s) (lcg_sigma s) (lcg_state s) shape).
  by destruct (lcg_draw (lcg_mu s) (lcg_sigma s) (lcg_state s) shape).
Qed.

Lemma Constant_contract : initializer_contract (I:=Constant).
Proof. intros s shape. simpl. apply length_replicate. Qed.

End Collaborators.

(** ** Regularization decay under plain SGD *)

Section DecaySGD.

Context {K : Type} {EqK : EqDecision K} {CountK : Countable K}.
Context {I : Type} `{!Initializer I}.

Implicit Types (w : World (K:=K) (O:=SGD) (I:=I)) (user item : K).


Lemma predict_one_present w user item (u i : vec) :
  u_latents (self w) !! user = Some u →
  i_latents (self w) !! item = Some i →
  length u = length i →
  _predict_one user item w = (Return (np.sum_products u i), w).
Proof.
  intros Hu Hi Hl. unfold _predict_one, bind.
  rewrite (u_latents_getitem_present w user u Hu).
  rewrite (i_latents_getitem_present w item i Hi).
  unfold lift. by rewrite np_dot_same_length.
Qed.






End DecaySGD.

(** ** Regularization decay: the rounds *)

Section DecayRounds.

Context {K : Type} {EqK : EqDecision K} {CountK : Countable K}.
Context {I : Type} `{!Initializer I}.

Implicit Types (w : World (K:=K) (O:=SGD) (I:=I)) (user item : K).




End DecayRounds.

(** ** The claims on concrete models *)

Section Concrete.

Import Examples.

Local Open Scope string_scope.

(** C1 fails on the code: [__init__] stores a given optimizer object on
    both sides (lines 91-92), so the user-side and item-side optimizers are
    one object.  With a momentum optimizer, a user and an item both keyed 1
    and one [fit_one], the user vector is the one a model with an optimizer
    per side gets, and the item vector is not: the accumulator the user
    step left under key 1 enters the item step. *)
Theorem shared_optimizer_entangles_sides :
  u_optimizer (self model_shared) = i_optimizer (self model_shared) ∧
  u_optimizer (self model_independent) ≠
    i_optimizer (self model_independent) ∧
  set_i_latents ∅ (set_u_latents ∅ (self model_independent)) =
    mkFunkMF (n_factors (self model_shared)) (u_optimizer (self model_shared))
      1 (loss (self model_shared)) (l2 (self model_shared))
      (initializer (self model_shared)) (clip_gradient (self model_shared))
      (random_state (self model_shared)) (u_latents (self model_shared))
      (i_latents (self model_shared)) ∧
  initializers (heap model_independent) = initializers (heap model_shared) ∧
  let fit := run [FitOne 1%nat 1%nat (Number 1)] in
  u_latents (self (fit model_shared)) =
    u_latents (self (fit model_independent)) ∧
  i_latents (self (fit model_shared)) !! 1%nat ≠
    i_latents (self (fit model_independent)) !! 1%nat.
Proof.
  split; [reflexivity|]. split; [discriminate|].
  split; [reflexivity|]. split; [vm_compute; reflexivity|]. simpl.
  split; [vm_compute; reflexivity|].
  intros E. vm_compute in E. discriminate E.
Qed.

(** C2 fails as stated: on a new model, [fit_one] with a target that is not
    a number raises in the loss gradient, after [_predict_one] has inserted
    the user key and the item key. *)
Lemma fit_one_raise_after_insert :
  let r := _fit_one "Alice" "Superman" (NonNumeric "eight") model0 in
  r.1 = Raise TypeError ∧
  u_latents (self model0) !! "Alice" = None ∧
  i_latents (self model0) !! "Superman" = None ∧
  u_latents (self r.2) !! "Alice" ≠ None ∧
  i_latents (self r.2) !! "Superman" ≠ None.
Proof.
  simpl. split; [vm_compute; reflexivity|].
  split; [vm_compute; reflexivity|]. split; [vm_compute; reflexivity|].
  split; intros E; vm_compute in E; discriminate E.
Qed.


(** C10: the two stores draw from one initializer object.  On a new model
    the item vector of the first call is the second draw of the generator,
    the one after the user vector.  The runs [run_a] and [run_b] reach the
    user keys in the same order and the item keys in the same order, and
    differ only in how the two orders interleave; they give the user key
    [u2] (and the item key [i2]) different initial vectors. *)
Theorem shared_initializer_interleaving :
  (let s0 := Lcg_Normal 0 (1 # 10) (Some 11%nat) in
   let d1 := initializer_call s0 2 in
   let d2 := initializer_call d1.2 2 in
   let w := run [Predict "u1" "i1"] model0 in
   initializers (heap model0) !! initializer (self model0) = Some s0 ∧
   u_latents (self w) !! "u1" = Some d1.1 ∧
   i_latents (self w) !! "i1" = Some d2.1 ∧
   initializers (heap w) !! initializer (self w) = Some d2.2) ∧
  remove_dups (call_user <$> run_a) = remove_dups (call_user <$> run_b) ∧
  remove_dups (call_item <$> run_a) = remove_dups (call_item <$> run_b) ∧
  u_latents (self (run run_a model0)) !! "u2" ≠
    u_latents (self (run run_b model0)) !! "u2" ∧
  i_latents (self (run run_a model0)) !! "i2" ≠
    i_latents (self (run run_b model0)) !! "i2".
Proof.
  split.
  { simpl. repeat split; vm_compute; reflexivity. }
  split; [vm_compute; reflexivity|]. split; [vm_compute; reflexivity|].
  split; intros E; vm_compute in E; discriminate E.
Qed.

Lemma model0_wf : wf model0.
Proof.
  apply (init_wf SGD_new Lcg_Normal 2 None None 0 None big
           (Some 11%nat) heap0); discriminate.
Qed.

Lemma model_unit_refs_ok l2_ c : refs_ok (model_unit l2_ c).
Proof. repeat split; vm_compute; by eexists. Qed.

Lemma model_unit_wf l2_ c : wf (model_unit l2_ c).
Proof.
  split; [apply model_unit_refs_ok|].
  split; simpl; by apply map_Forall_singleton.
Qed.

Lemma model_unit_predict l2_ c :
  _predict_one "Alice" "Superman" (model_unit l2_ c) =
    (Return (1 * 1 + 0)%Q, model_unit l2_ c).
Proof. by apply (predict_one_present _ _ _ [1%Q] [1%Q]). Qed.

(** Witness of C2 (amended): the failing call above. *)
Lemma fit_one_raise_keeps_predict_state_witness :
  let w' := (_fit_one "Alice" "Superman" (NonNumeric "eight") model0).2 in
  refs_ok model0 ∧
  _fit_one "Alice" "Superman" (NonNumeric "eight") model0
    = (Raise TypeError, w') ∧
  w' = (_predict_one "Alice" "Superman" model0).2 ∧
  optimizers (heap w') = optimizers (heap model0).
Proof.
  intros w'.
  assert (refs_ok model0) as Hr by apply model0_wf.
  assert (_fit_one "Alice" "Superman" (NonNumeric "eight") model0
          = (Raise TypeError, w')) as Hf by (vm_compute; reflexivity).
  split; [exact Hr|]. split; [exact Hf|].
  destruct (fit_one_raise_keeps_predict_state model0 "Alice" "Superman"
              (NonNumeric "eight") TypeError w' Hr Hf) as (E1 & E2 & _).
  split; [exact E1 | exact E2].
Defined.

(** Witness of C3: unit vectors, target 3. *)
Lemma fit_one_gradients_from_snapshot_witness :
  refs_ok (model_unit 1 big) ∧
  _predict_one "Alice" "Superman" (model_unit 1 big)
    = (Return (1 * 1 + 0)%Q, model_unit 1 big) ∧
  gradient (loss (self (model_unit 1 big))) (Number 3) (1 * 1 + 0)%Q
    = Return (2 * (1 * 1 + 0 - 3))%Q ∧
  ∃ w', _fit_one "Alice" "Superman" (Number 3) (model_unit 1 big)
          = (Return tt, w').
Proof.
  assert (refs_ok (model_unit 1 big)) as Hr by apply model_unit_refs_ok.
  pose proof (model_unit_predict 1 big) as Hp.
  split; [exact Hr|]. split; [exact Hp|]. split; [reflexivity|].
  destruct (fit_one_gradients_from_snapshot (model_unit 1 big) "Alice"
              "Superman" (Number 3) (1 * 1 + 0)%Q (model_unit 1 big)
              (2 * (1 * 1 + 0 - 3))%Q Hr Hp eq_refl)
    as (u & i & ou & oi & _ & _ & _ & _ & _ & Hfit).
  eexists. exact Hfit.
Defined.

(** Witness of C4: the first prediction of a new model. *)
Lemma predict_one_dot_lazy_witness :
  let s0 := Lcg_Normal 0 (1 # 10) (Some 11%nat) in
  initializers (heap model0) !! initializer (self model0) = Some s0 ∧
  shapes_ok model0 ∧
  initializer_contract (I:=Lcg) ∧
  ∃ y w', _predict_one "Alice" "Superman" model0 = (Return y, w').
Proof.
  intros s0.
  assert (initializers (heap model0) !! initializer (self model0) = Some s0)
    as Hs by (vm_compute; reflexivity).
  assert (shapes_ok model0) as Hsh by apply model0_wf.
  split; [exact Hs|]. split; [exact Hsh|]. split; [exact Lcg_contract|].
  destruct (predict_one_dot_lazy model0 "Alice" "Superman" s0 Hs Hsh
              Lcg_contract) as (Hp & _).
  eexists _, _. exact Hp.
Defined.

(** Witness of C5: clip bound 1, target 10, hence a raw gradient of -18
    used as -1. *)
Lemma fit_one_clips_loss_gradient_witness :
  refs_ok (model_unit 0 1) ∧
  (0 < clip_gradient (self (model_unit 0 1)))%Q ∧
  _predict_one "Alice" "Superman" (model_unit 0 1)
    = (Return (1 * 1 + 0)%Q, model_unit 0 1) ∧
  gradient (loss (self (model_unit 0 1))) (Number 10) (1 * 1 + 0)%Q
    = Return (2 * (1 * 1 + 0 - 10))%Q ∧
  _fit_one "Alice" "Superman" (Number 10) (model_unit 0 1)
    = update_latents "Alice" "Superman" (- (1))%Q (model_unit 0 1).
Proof.
  assert (refs_ok (model_unit 0 1)) as Hr by apply model_unit_refs_ok.
  pose proof (model_unit_predict 0 1) as Hp.
  split; [exact Hr|]. split; [reflexivity|]. split; [exact Hp|].
  split; [reflexivity|].
  destruct (fit_one_clips_loss_gradient (model_unit 0 1) "Alice" "Superman"
              (Number 10) (1 * 1 + 0)%Q (model_unit 0 1)
              (2 * (1 * 1 + 0 - 10))%Q Hr eq_refl Hp eq_refl)
    as (_ & _ & _ & _ & _ & Hbelow).
  apply Hbelow. reflexivity.
Defined.


(** Witness of C7: the run [run_b] on a new model. *)
Lemma stores_hold_exactly_referenced_keys_witness :
  initializer_contract (I:=Lcg) ∧
  optimizer_contract (K:=string) (O:=SGD) ∧
  size (u_latents (self (run run_b model0))) = 2 ∧
  size (i_latents (self (run run_b model0))) = 2.
Proof.
  split; [exact Lcg_contract|]. split; [exact SGD_contract|].
  destruct (stores_hold_exactly_referenced_keys SGD_new Lcg_Normal 2 None
              None 0 None big (Some 11%nat) heap0 run_b
              Lcg_contract SGD_contract)
    as (_ & _ & Su & Si & _); [discriminate|discriminate|].
  split; [exact Su | exact Si].
Defined.

(** Witness of C9: a new model with [n_factors = 0]. *)
Lemma zero_factors_degenerate_witness :
  wf model_no_factors ∧
  initializer_contract (I:=Lcg) ∧
  n_factors (self model_no_factors) = 0 ∧
  ∃ w1, _predict_one "Alice" "Superman" model_no_factors = (Return 0%Q, w1).
Proof.
  assert (wf model_no_factors) as Hwf.
  { apply (init_wf SGD_new Lcg_Normal 0 None None 0 None big
             (Some 11%nat) heap0); discriminate. }
  split; [exact Hwf|]. split; [exact Lcg_contract|]. split; [reflexivity|].
  destruct (zero_factors_degenerate model_no_factors "Alice" "Superman" Hwf
              Lcg_contract eq_refl) as (w1 & Hp & _).
  exists w1. exact Hp.
Defined.



End Concrete.

(** * Further properties of the three methods *)

Section Further.

Context {K : Type} {EqK : EqDecision K} {CountK : Countable K}.
Context {O I : Type} `{!Optimizer K O} `{!Initializer I}.

Implicit Types (w : World (K:=K) (O:=O) (I:=I)) (m : FunkMF (K:=K)).
Implicit Types (user item key : K) (d g : gmap K vec) (s : I) (o : O).

Lemma predict_one_stored w user item (u i : vec) :
  u_latents (self w) !! user = Some u →
  i_latents (self w) !! item = Some i →
  _predict_one user item w = (np.dot u i, w).
Proof.
  intros Hu Hi. unfold _predict_one, bind.
  rewrite (u_latents_getitem_present w user u Hu).
  by rewrite (i_latents_getitem_present w item i Hi).
Qed.

Lemma predict_one_without_initializer w user item :
  initializers (heap w) !! initializer (self w) = None →
  (_predict_one user item w).2 = w.
Proof.
  intros Hn.
  unfold _predict_one, bind, u_latents_getitem, i_latents_getitem,
    defaultdict_getitem, bind, attr, random_latents, ret, lift. simpl.
  destruct (u_latents (self w) !! user); simpl;
    [destruct (i_latents (self w) !! item); simpl|]; by rewrite ?Hn.
Qed.

(** A second [_predict_one] on the same pair is a pure read: it gives the
    outcome of the first and leaves the state the first one left, the
    initializer included (lines 110-111: the keys are stored by then). *)
Theorem predict_one_twice w user item :
  let r := _predict_one user item w in
  _predict_one user item r.2 = r.
Proof.
  simpl. destruct (initializers (heap w) !! initializer (self w)) as [s|] eqn:Hs.
  - destruct (_predict_one user item w) as [r w1] eqn:Hp.
    destruct (predict_one_inv w user item s r w1 Hs Hp)
      as (u & i & Hu & Hi & -> & _).
    simpl. by apply predict_one_stored.
  - by rewrite (predict_one_without_initializer w user item Hs).
Qed.

(** What [_predict_one] leaves outside the two entries it reads. *)
Lemma predict_one_frame w user item s r w1 :
  initializers (heap w) !! initializer (self w) = Some s →
  _predict_one user item w = (r, w1) →
  (∀ key, key ≠ user →
     u_latents (self w1) !! key = u_latents (self w) !! key) ∧
  (∀ key, key ≠ item →
     i_latents (self w1) !! key = i_latents (self w) !! key) ∧
  (∀ l, l ≠ initializer (self w) →
     initializers (heap w1) !! l = initializers (heap w) !! l).
Proof.
  intros Hs Hp. rewrite (predict_one_get_or_init w user item s Hs) in Hp.
  simpl in Hp.
  pose proof (λ key, get_or_init_lookup_ne (u_latents (self w)) user key s
                (n_factors (self w))) as Fu.
  destruct (get_or_init (u_latents (self w)) user s (n_factors (self w)))
    as [[u du] s1].
  pose proof (λ key, get_or_init_lookup_ne (i_latents (self w)) item key s1
                (n_factors (self w))) as Fi.
  destruct (get_or_init (i_latents (self w)) item s1 (n_factors (self w)))
    as [[i di] s2].
  simpl in *. injection Hp as <- <-. simpl.
  split; [intros key Hne; by apply Fu|].
  split; [intros key Hne; by apply Fi|].
  intros l Hne. by rewrite lookup_insert_ne.
Qed.

(** The outcome of [_fit_one], case by case. *)
Lemma fit_one_outcome_cases w user item y :
  refs_ok w →
  match _predict_one user item w with
  | (Raise e, w1) => _fit_one user item y w = (Raise e, w1)
  | (Return y_pred, w1) =>
      match gradient (loss (self w)) y y_pred with
      | Raise e => _fit_one user item y w = (Raise e, w1)
      | Return raw => (_fit_one user item y w).1 = Return tt
      end
  end.
Proof.
  intros Hrefs. destruct (_predict_one user item w) as [[y_pred|e] w1] eqn:Hp.
  - destruct (predict_one_post w user item _ w1 Hrefs Hp) as (Hself & _).
    destruct (gradient (loss (self w)) y y_pred) as [raw|e] eqn:Hloss.
    + destruct (fit_one_snapshot_steps w user item y y_pred w1 raw
                  Hrefs Hp Hloss) as (u & i & ou & oi & _ & _ & _ & _ & _ & Hok).
      simpl in Hok. by rewrite Hok.
    + unfold _fit_one, bind. rewrite Hp. unfold attr at 1. simpl.
      assert (loss (self w1) = loss (self w)) as -> by (by rewrite Hself).
      by rewrite Hloss.
  - unfold _fit_one, bind. by rewrite Hp.
Qed.

(** [_fit_one] (lines 113-129) fails exactly as its prediction or its loss
    gradient fails: an exception of [_predict_one] or of [loss.gradient] is
    the exception of [_fit_one], raised in the state the prediction left; when
    both return, [_fit_one] returns. *)
Theorem fit_one_propagates_errors w user item y :
  refs_ok w →
  match _predict_one user item w with
  | (Raise e, w1) => _fit_one user item y w = (Raise e, w1)
  | (Return y_pred, w1) =>
      match gradient (loss (self w)) y y_pred with
      | Raise e => _fit_one user item y w = (Raise e, w1)
      | Return raw => (_fit_one user item y w).1 = Return tt
      end
  end.
Proof. apply fit_one_outcome_cases. Qed.

(** The entries and objects [_fit_one] leaves alone. *)
Lemma fit_one_frame w user item y :
  refs_ok w →
  optimizer_contract (K:=K) (O:=O) →
  let w' := (_fit_one user item y w).2 in
  (∀ key, key ≠ user →
     u_latents (self w') !! key = u_latents (self w) !! key) ∧
  (∀ key, key ≠ item →
     i_latents (self w') !! key = i_latents (self w) !! key) ∧
  (∀ l, l ≠ u_optimizer (self w) → l ≠ i_optimizer (self w) →
     optimizers (heap w') !! l = optimizers (heap w) !! l) ∧
  (∀ l, l ≠ initializer (self w) →
     initializers (heap w') !! l = initializers (heap w) !! l) ∧
  self w' = set_i_latents (i_latents (self w'))
              (set_u_latents (u_latents (self w')) (self w)).
Proof.
  intros Hrefs Hoc w'. pose proof Hrefs as (_ & _ & [s Hs]).
  destruct (_predict_one user item w) as [r w1] eqn:Hp.
  destruct (predict_one_frame w user item s r w1 Hs Hp) as (Fu & Fi & Fh).
  destruct (predict_one_post w user item r w1 Hrefs Hp)
    as (Hself & Hopts & _).
  assert (w' = w1 ∨
          ∃ y_pred raw u i ou oi,
            r = Return y_pred ∧
            gradient (loss (self w)) y y_pred = Return raw ∧
            w' = mkWorld
                   (set_i_latents
                      (update_after_pred oi (i_latents (self w1))
                         {[ item := np.add
                              (np.scale (clamp raw (- clip_gradient (self w))
                                           (clip_gradient (self w))) u)
                              (np.scale (l2 (self w)) i) ]}).1
                      (set_u_latents
                         (update_after_pred ou (u_latents (self w1))
                            {[ user := np.add
                                 (np.scale (clamp raw (- clip_gradient (self w))
                                              (clip_gradient (self w))) i)
                                 (np.scale (l2 (self w)) u) ]}).1
                         (self w1)))
                   (set_optimizer_state (i_optimizer (self w))
                      (update_after_pred oi (i_latents (self w1))
                         {[ item := np.add
                              (np.scale (clamp raw (- clip_gradient (self w))
                                           (clip_gradient (self w))) u)
                              (np.scale (l2 (self w)) i) ]}).2
                      (set_optimizer_state (u_optimizer (self w))
                         (update_after_pred ou (u_latents (self w1))
                            {[ user := np.add
                                 (np.scale (clamp raw (- clip_gradient (self w))
                                              (clip_gradient (self w))) i)
                                 (np.scale (l2 (self w)) u) ]}).2
                         (heap w1)))) as [->|Hret].
  { pose proof (fit_one_outcome_cases w user item y Hrefs) as Hcases.
    rewrite Hp in Hcases. subst w'. destruct r as [y_pred|e].
    - destruct (gradient (loss (self w)) y y_pred) as [raw|e] eqn:Hloss.
      + right.
        destruct (fit_one_snapshot_steps w user item y y_pred w1 raw
                    Hrefs Hp Hloss)
          as (u & i & ou & oi & _ & _ & _ & _ & _ & Hok).
        simpl in Hok. exists y_pred, raw, u, i, ou, oi. by rewrite Hok.
      + left. by rewrite Hcases.
    - left. by rewrite Hcases. }
  - split; [done|]. split; [done|].
    split; [intros l _ _; by rewrite Hopts|]. split; [done|]. done.
  - destruct Hret as (y_pred & raw & u & i & ou & oi & -> & Hloss & ->).
    simpl.
    split.
    { intros key Hne. destruct (Hoc ou (u_latents (self w1))
        {[ user := np.add
             (np.scale (clamp raw (- clip_gradient (self w))
                          (clip_gradient (self w))) i)
             (np.scale (l2 (self w)) u) ]}) as [Hother _].
      rewrite Hother by (by apply lookup_singleton_ne). by apply Fu. }
    split.
    { intros key Hne. destruct (Hoc oi (i_latents (self w1))
        {[ item := np.add
             (np.scale (clamp raw (- clip_gradient (self w))
                          (clip_gradient (self w))) u)
             (np.scale (l2 (self w)) i) ]}) as [Hother _].
      rewrite Hother by (by apply lookup_singleton_ne). by apply Fi. }
    split.
    { intros l Hu Hi. rewrite !lookup_insert_ne by done. by rewrite Hopts. }
    split; [done|].
    rewrite Hself. by destruct (self w).
Qed.


(** A [_fit_one] on one pair leaves the prediction of every pair of other
    stored keys as it was (lines 122-127: each gradient has the one key of
    the call).  The optimizer is taken under its contract. *)
Theorem fit_one_keeps_other_predictions w user item y user' item' u' i' :
  refs_ok w →
  optimizer_contract (K:=K) (O:=O) →
  user' ≠ user → item' ≠ item →
  u_latents (self w) !! user' = Some u' →
  i_latents (self w) !! item' = Some i' →
  let w' := (_fit_one user item y w).2 in
  (_predict_one user' item' w').1 = (_predict_one user' item' w).1 ∧
  (_predict_one user' item' w').2 = w'.
Proof.
  intros Hrefs Hoc Hu Hi Su Si w'.
  destruct (fit_one_frame w user item y Hrefs Hoc) as (Fu & Fi & _).
  fold w' in Fu, Fi.
  rewrite (predict_one_stored w' user' item' u' i');
    [|by rewrite Fu|by rewrite Fi].
  by rewrite (predict_one_stored w user' item' u' i').
Qed.

(** Lines 126-127 run the user step first.  When both attributes hold one
    optimizer object, the item step is made by the object as the user step
    left it; when they hold two, it is made by the item-side object as it
    was before the call. *)
Theorem fit_one_item_step_optimizer w user item y y_pred w1 raw :
  refs_ok w →
  _predict_one user item w = (Return y_pred, w1) →
  gradient (loss (self w)) y y_pred = Return raw →
  ∃ u i ou oi,
    u_latents (self w1) !! user = Some u ∧
    i_latents (self w1) !! item = Some i ∧
    optimizers (heap w) !! u_optimizer (self w) = Some ou ∧
    let g := clamp raw (- clip_gradient (self w)) (clip_gradient (self w)) in
    let ru := update_after_pred ou (u_latents (self w1))
                {[ user := np.add (np.scale g i) (np.scale (l2 (self w)) u) ]} in
    let ri := update_after_pred oi (i_latents (self w1))
                {[ item := np.add (np.scale g u) (np.scale (l2 (self w)) i) ]} in
    (if decide (u_optimizer (self w) = i_optimizer (self w))
     then oi = ru.2
     else optimizers (heap w) !! i_optimizer (self w) = Some oi) ∧
    u_latents (self (_fit_one user item y w).2) = ru.1 ∧
    i_latents (self (_fit_one user item y w).2) = ri.1 ∧
    optimizers (heap (_fit_one user item y w).2) !! i_optimizer (self w)
      = Some ri.2.
Proof.
  intros Hrefs Hp Hloss.
  destruct (fit_one_snapshot_steps w user item y y_pred w1 raw Hrefs Hp Hloss)
    as (u & i & ou & oi & Hu & Hi & _ & Hou & Hoi & Hok).
  destruct (predict_one_post w user item _ w1 Hrefs Hp) as (_ & Hopts & _).
  simpl in Hou, Hoi, Hok. rewrite Hopts in Hou, Hoi.
  exists u, i, ou, oi. split; [done|]. split; [done|]. split; [done|].
  simpl. split.
  - case_decide as Heq.
    + rewrite Heq, lookup_insert_eq in Hoi. by injection Hoi.
    + by rewrite lookup_insert_ne in Hoi.
  - rewrite Hok. simpl. split; [done|]. split; [done|].
    apply lookup_insert_eq.
Qed.

(** On a model built by [__init__], after any sequence of calls,
    [_predict_one] returns on every pair of keys, seen or not: no size
    mismatch can arise; and [_fit_one] returns or raises exactly as the loss
    gradient does.  The collaborators are taken under their contracts. *)
Theorem predict_one_returns_after_any_run
    (SGD_default : O) (Normal : Q → Q → option nat → I)
    (n : nat) (optimizer : option loc) (loss_ : option Loss) (l2_ : Q)
    (initializer_ : option loc) (c : Q) (rs : option nat) h
    (cs : list (call K)) user item :
  initializer_contract (I:=I) →
  optimizer_contract (K:=K) (O:=O) →
  (∀ l, optimizer = Some l → is_Some (optimizers h !! l)) →
  (∀ l, initializer_ = Some l → is_Some (initializers h !! l)) →
  let w := run cs (__init__ (K:=K) SGD_default Normal n optimizer loss_ l2_
                            initializer_ c rs h) in
  ∃ y_pred,
    (_predict_one user item w).1 = Return y_pred ∧
    ∀ y, (_fit_one user item y w).1 =
           match gradient (loss (self w)) y y_pred with
           | Return _ => Return tt
           | Raise e => Raise e
           end.
Proof.
  intros Hic Hoc Ho Hi w.
  destruct (init_wf (K:=K) SGD_default Normal n optimizer loss_ l2_
              initializer_ c rs h Ho Hi) as (Hwf0 & _).
  destruct (run_post cs _ Hwf0 Hic Hoc) as ([Hrefs Hsh] & _).
  fold w in Hrefs, Hsh.
  destruct (_predict_one user item w) as [r w1] eqn:Hp.
  destruct (predict_one_post w user item r w1 Hrefs Hp)
    as (_ & _ & _ & _ & _ & _ & _ & Hret).
  destruct (Hret Hic Hsh) as [_ Hr]. destruct r as [y_pred|e]; [|done].
  exists y_pred. split; [done|]. intros y.
  pose proof (fit_one_outcome_cases w user item y Hrefs) as Hcases.
  rewrite Hp in Hcases.
  destruct (gradient (loss (self w)) y y_pred); [done|by rewrite Hcases].
Qed.

(** [_predict_one] stores both keys before it multiplies: whatever its
    outcome, the two vectors are in the stores afterwards; it returns their
    inner product when their sizes agree and raises [ValueError] otherwise. *)
Theorem predict_one_stores_then_multiplies w user item :
  is_Some (initializers (heap w) !! initializer (self w)) →
  let r := _predict_one user item w in
  ∃ u i,
    u_latents (self r.2) !! user = Some u ∧
    i_latents (self r.2) !! item = Some i ∧
    r.1 = if decide (length u = length i)
          then Return (np.sum_products u i) else Raise ValueError.
Proof.
  intros [s Hs] r. subst r.
  destruct (_predict_one user item w) as [r w1] eqn:Hp.
  destruct (predict_one_inv w user item s r w1 Hs Hp)
    as (u & i & Hu & Hi & Hr & _).
  by exists u, i.
Qed.

(** On a model whose stored vectors all have [n_factors] entries, a
    [_fit_one] whose prediction and loss gradient return calls each optimizer
    on an entry of [n_factors] values with a gradient of [n_factors] values
    for the same key, and its result is made of those two calls. *)
Theorem fit_one_gradient_shapes w user item y y_pred w1 raw :
  wf w →
  initializer_contract (I:=I) →
  _predict_one user item w = (Return y_pred, w1) →
  gradient (loss (self w)) y y_pred = Return raw →
  ∃ u i gu gi ou oi,
    u_latents (self w1) !! user = Some u ∧
    i_latents (self w1) !! item = Some i ∧
    length u = n_factors (self w) ∧ length gu = n_factors (self w) ∧
    length i = n_factors (self w) ∧ length gi = n_factors (self w) ∧
    optimizers (heap w1) !! u_optimizer (self w) = Some ou ∧
    let ru := update_after_pred ou (u_latents (self w1)) {[ user := gu ]} in
    <[u_optimizer (self w) := ru.2]> (optimizers (heap w1))
      !! i_optimizer (self w) = Some oi ∧
    let ri := update_after_pred oi (i_latents (self w1)) {[ item := gi ]} in
    _fit_one user item y w =
      (Return tt,
       mkWorld (set_i_latents ri.1 (set_u_latents ru.1 (self w1)))
               (set_optimizer_state (i_optimizer (self w)) ri.2
                  (set_optimizer_state (u_optimizer (self w)) ru.2
                     (heap w1)))).
Proof.
  intros [Hrefs Hsh] Hic Hp Hloss.
  destruct (fit_one_snapshot_steps w user item y y_pred w1 raw Hrefs Hp Hloss)
    as (u & i & ou & oi & Hu & Hi & _ & Hou & Hoi & Hok).
  destruct (predict_one_post w user item _ w1 Hrefs Hp)
    as (Hself & _ & _ & _ & _ & _ & _ & Hsh1).
  destruct (Hsh1 Hic Hsh) as [[Hshu Hshi] _].
  assert (n_factors (self w1) = n_factors (self w)) as En by (by rewrite Hself).
  pose proof (map_Forall_lookup_1 _ _ _ _ Hshu Hu) as Lu.
  pose proof (map_Forall_lookup_1 _ _ _ _ Hshi Hi) as Li.
  simpl in Lu, Li, Hou, Hoi, Hok. rewrite En in Lu, Li.
  eexists u, i, _, _, ou, oi.
  split; [done|]. split; [done|]. split; [done|].
  split; [|split; [done|split; [|split; [exact Hou|split; [exact Hoi|exact Hok]]]]].
  - rewrite np_add_length; rewrite !np_scale_length; congruence.
  - rewrite np_add_length; rewrite !np_scale_length; congruence.
Qed.

(** Building another model does not change what an existing model predicts:
    [__init__] only adds objects to the heap, so a prediction of a model
    that was there before gives the same outcome and the same model state
    after the construction as before it. *)
Theorem init_keeps_existing_predictions (SGD_default : O)
    (Normal : Q → Q → option nat → I) (n : nat) (optimizer : option loc)
    (loss_ : option Loss) (l2_ : Q) (initializer_ : option loc) (c : Q)
    (rs : option nat) m (h : Heap (O:=O) (I:=I)) user item :
  is_Some (initializers h !! initializer m) →
  let h' := heap (__init__ (K:=K) SGD_default Normal n optimizer loss_ l2_
                           initializer_ c rs h) in
  (_predict_one user item (mkWorld m h')).1
    = (_predict_one user item (mkWorld m h)).1 ∧
  self (_predict_one user item (mkWorld m h')).2
    = self (_predict_one user item (mkWorld m h)).2.
Proof.
  intros [s Hs] h'.
  assert (initializers h' !! initializer m = Some s) as Hs'.
  { subst h'. unfold __init__, alloc.
    destruct optimizer; destruct initializer_; simpl; try done.
    all: rewrite lookup_insert_ne; [done|].
    all: intros E; apply (is_fresh (dom (initializers h))); rewrite E.
    all: by apply elem_of_dom_2 in Hs. }
  rewrite (predict_one_get_or_init (mkWorld m h') user item s Hs').
  rewrite (predict_one_get_or_init (mkWorld m h) user item s Hs).
  simpl.
  destruct (get_or_init (u_latents m) user s (n_factors m)) as [[u du] s1].
  by destruct (get_or_init (i_latents m) item s1 (n_factors m)) as [[i di] s2].
Qed.

End Further.

(** ** Witnesses of the further properties *)

Section FurtherWitnesses.

Import Examples.

Local Open Scope string_scope.

Lemma run_a_wf : wf (run run_a model0).
Proof.
  apply (run_post run_a model0 model0_wf Lcg_contract SGD_contract).
Qed.

(** A target that is not a number: the loss gradient raises [TypeError] and
    so does [_fit_one]. *)
Lemma fit_one_propagates_errors_witness :
  refs_ok model0 ∧
  (_fit_one "Alice" "Superman" (NonNumeric "eight") model0).1
    = Raise TypeError.
Proof.
  assert (refs_ok model0) as Hr by apply model0_wf.
  split; [exact Hr|].
  pose proof (fit_one_propagates_errors model0 "Alice" "Superman"
                (NonNumeric "eight") Hr) as Hc.
  destruct (_predict_one "Alice" "Superman" model0) as [[y_pred|e] w1] eqn:Hp.
  - simpl in Hc. rewrite Hc. reflexivity.
  - vm_compute in Hp. discriminate Hp.
Defined.


Lemma fit_one_keeps_other_predictions_witness :
  let w := run run_a model0 in
  let w' := (_fit_one "u1" "i1" (Number 8) w).2 in
  refs_ok w ∧
  optimizer_contract (K:=string) (O:=SGD) ∧
  "u2" ≠ "u1" ∧ "i2" ≠ "i1" ∧
  is_Some (u_latents (self w) !! "u2") ∧
  is_Some (i_latents (self w) !! "i2") ∧
  (_predict_one "u2" "i2" w').1 = (_predict_one "u2" "i2" w).1.
Proof.
  intros w w'.
  assert (refs_ok w) as Hr by apply run_a_wf.
  assert (is_Some (u_latents (self w) !! "u2")) as [u' Su]
    by (vm_compute; by eexists).
  assert (is_Some (i_latents (self w) !! "i2")) as [i' Si]
    by (vm_compute; by eexists).
  assert ("u2" ≠ "u1") as Hu by discriminate.
  assert ("i2" ≠ "i1") as Hi by discriminate.
  split; [exact Hr|]. split; [exact SGD_contract|].
  split; [exact Hu|]. split; [exact Hi|].
  split; [by exists u'|]. split; [by exists i'|].
  destruct (fit_one_keeps_other_predictions w "u1" "i1" (Number 8) "u2" "i2"
              u' i' Hr SGD_contract Hu Hi Su Si) as [Hsame _].
  exact Hsame.
Defined.

(** One SGD object on both sides: the item step is made by the object the
    user step left. *)
Lemma fit_one_item_step_optimizer_witness :
  refs_ok (model_unit_shared 1 big) ∧
  _predict_one "Alice" "Superman" (model_unit_shared 1 big)
    = (Return (1 * 1 + 0)%Q, model_unit_shared 1 big) ∧
  gradient (loss (self (model_unit_shared 1 big))) (Number 3) (1 * 1 + 0)%Q
    = Return (2 * (1 * 1 + 0 - 3))%Q ∧
  optimizers (heap (_fit_one "Alice" "Superman" (Number 3)
                      (model_unit_shared 1 big)).2) !! 0%nat = Some SGD_new.
Proof.
  assert (refs_ok (model_unit_shared 1 big)) as Hr
    by (repeat split; vm_compute; by eexists).
  assert (_predict_one "Alice" "Superman" (model_unit_shared 1 big)
          = (Return (1 * 1 + 0)%Q, model_unit_shared 1 big)) as Hp
    by (by apply (predict_one_present _ _ _ [1%Q] [1%Q])).
  split; [exact Hr|]. split; [exact Hp|]. split; [reflexivity|].
  destruct (fit_one_item_step_optimizer (model_unit_shared 1 big) "Alice"
              "Superman" (Number 3) (1 * 1 + 0)%Q (model_unit_shared 1 big)
              (2 * (1 * 1 + 0 - 3))%Q Hr Hp eq_refl)
    as (u & i & ou & oi & _ & _ & Hou & Hoi & _ & _ & Hheap).
  simpl in Hheap, Hoi, Hou. rewrite Hheap.
  injection Hou as <-. rewrite Hoi. reflexivity.
Defined.

Lemma predict_one_returns_after_any_run_witness :
  initializer_contract (I:=Lcg) ∧
  optimizer_contract (K:=string) (O:=SGD) ∧
  ∃ y_pred, (_predict_one "u3" "i1" (run run_b model0)).1 = Return y_pred.
Proof.
  split; [exact Lcg_contract|]. split; [exact SGD_contract|].
  destruct (predict_one_returns_after_any_run SGD_new Lcg_Normal 2 None None 0
              None big (Some 11%nat) heap0 run_b "u3" "i1"
              Lcg_contract SGD_contract)
    as (y_pred & Hp & _); [discriminate|discriminate|].
  exists y_pred. exact Hp.
Defined.

Lemma predict_one_stores_then_multiplies_witness :
  is_Some (initializers (heap model0) !! initializer (self model0)) ∧
  ∃ u i,
    u_latents (self (_predict_one "Alice" "Superman" model0).2) !! "Alice"
      = Some u ∧
    i_latents (self (_predict_one "Alice" "Superman" model0).2) !! "Superman"
      = Some i.
Proof.
  assert (is_Some (initializers (heap model0) !! initializer (self model0)))
    as Hs by apply model0_wf.
  split; [exact Hs|].
  destruct (predict_one_stores_then_multiplies model0 "Alice" "Superman" Hs)
    as (u & i & Hu & Hi & _).
  by exists u, i.
Defined.

Lemma fit_one_gradient_shapes_witness :
  wf (model_unit 1 big) ∧
  initializer_contract (I:=Lcg) ∧
  _predict_one "Alice" "Superman" (model_unit 1 big)
    = (Return (1 * 1 + 0)%Q, model_unit 1 big) ∧
  gradient (loss (self (model_unit 1 big))) (Number 3) (1 * 1 + 0)%Q
    = Return (2 * (1 * 1 + 0 - 3))%Q ∧
  ∃ w', _fit_one "Alice" "Superman" (Number 3) (model_unit 1 big)
          = (Return tt, w').
Proof.
  pose proof (model_unit_wf 1 big) as Hwf.
  pose proof (model_unit_predict 1 big) as Hp.
  split; [exact Hwf|]. split; [exact Lcg_contract|]. split; [exact Hp|].
  split; [reflexivity|].
  destruct (fit_one_gradient_shapes (model_unit 1 big) "Alice" "Superman"
              (Number 3) (1 * 1 + 0)%Q (model_unit 1 big)
              (2 * (1 * 1 + 0 - 3))%Q Hwf Lcg_contract Hp eq_refl)
    as (u & i & gu & gi & ou & oi & _ & _ & _ & _ & _ & _ & _ & _ & Hfit).
  eexists. exact Hfit.
Defined.

(** [model0] predicts the same before and after [model0_again] is built. *)
Lemma init_keeps_existing_predictions_witness :
  is_Some (initializers (heap model0) !! initializer (self model0)) ∧
  (_predict_one "Alice" "Superman"
     (mkWorld (self model0) (heap model0_again))).1
    = (_predict_one "Alice" "Superman" model0).1.
Proof.
  assert (is_Some (initializers (heap model0) !! initializer (self model0)))
    as Hs by apply model0_wf.
  split; [exact Hs|].
  destruct (init_keeps_existing_predictions SGD_new Lcg_Normal 2 None None 0
              None big (Some 11%nat) (self model0) (heap model0)
              "Alice" "Superman" Hs) as [Hsame _].
  exact Hsame.
Defined.

End FurtherWitnesses.
